(** * remongo: a generic repository over the MongoDB Go driver

    Shallow embedding of [repository.go] and the properties of its
    specification.

    The repository is a thin layer over three collaborators that live
    outside the package: the [bson] codec, the [mongo] driver's collection
    operations and the Go runtime (pointers, slices, panics).  They are
    represented as follows.

    - A Go [interface{}] value is an element of [any]; the constructor
      records the dynamic type, which is all that [ToBson]'s type assertion
      and the [aggregate != nil] test look at.
    - [bson.Marshal] and [bson.Unmarshal] are the two operations of the
      class [Bson]; the collection operations of the driver are the
      operations of the class [Driver] over an arbitrary connection state.
    - Every method runs in the monad [M]: it threads the caller's memory
      (model objects and the backing arrays of slices), the connection state
      and the list of driver calls issued so far, and it ends either with a
      value or with a Go panic.
    - A pointer the callee may write through ([FindOne]'s model, the
      elements of [Find]'s destination) is an address into that memory.
      The [Model] field of a repository struct is a cell of the same
      memory, so that a destination can point to it; the models are struct
      types.  A
      pointer that is only read ([InsertOne], [ReplaceOne], [InsertMany],
      [*bson.D]) is represented by its pointee, [None] being the nil
      pointer. *)

From Stdlib Require Import ZArith String List Bool Lia.
From Stdlib.Strings Require Byte.
From stdpp Require Import base option list strings.
Import ListNotations.

Set Implicit Arguments.
Set Warnings "-register-all".
Set Default Proof Using "Type".

(** ** Errors *)

(** Go [error] values.  [ErrNoDocuments] is the sentinel
    [mongo.ErrNoDocuments]; the other constructors carry the message of a
    driver failure and of a codec failure. *)
Inductive error : Type :=
| ErrNoDocuments
| ErrDriver (msg : string)
| ErrBson (msg : string).

#[global] Instance error_eq_dec : EqDecision error.
Proof. solve_decision. Defined.

(** ** BSON documents *)

(** The BSON values the development needs: null, booleans, 64-bit
    integers, strings and embedded documents. *)
Inductive bval : Type :=
| BNull
| BBool (b : bool)
| BInt64 (n : Z)
| BString (s : string)
| BDoc (d : list (string * bval)).

(** [bson.E]: one key with its value. *)
Definition E : Type := string * bval.

(** [bson.D]: the ordered document, a slice of [bson.E]. *)
Definition D : Type := list E.

Fixpoint bval_eqb (a b : bval) : bool :=
  match a, b with
  | BNull, BNull => true
  | BBool x, BBool y => Bool.eqb x y
  | BInt64 x, BInt64 y => Z.eqb x y
  | BString x, BString y => String.eqb x y
  | BDoc d1, BDoc d2 =>
      (fix go (l1 l2 : list (string * bval)) : bool :=
         match l1, l2 with
         | [], [] => true
         | (k1, v1) :: t1, (k2, v2) :: t2 =>
             String.eqb k1 k2 && bval_eqb v1 v2 && go t1 t2
         | _, _ => false
         end) d1 d2
  | _, _ => false
  end.

(** First value stored under [k] in an ordered document. *)
Fixpoint d_lookup (k : string) (d : D) : option bval :=
  match d with
  | [] => None
  | (k', v) :: rest => if String.eqb k k' then Some v else d_lookup k rest
  end.

(** Overwrite the first [k] of [d], or append the pair when [k] is new. *)
Fixpoint d_set (k : string) (v : bval) (d : D) : D :=
  match d with
  | [] => [(k, v)]
  | (k', v') :: rest =>
      if String.eqb k k' then (k, v) :: rest else (k', v') :: d_set k v rest
  end.

(** ** Interface values *)

Section Any.

Variable T : Type.

(** A Go [interface{}] value, by dynamic type. *)
Inductive any : Type :=
| ANil                                  (* the nil interface value *)
| AInt (n : Z)                          (* an integer *)
| AString (s : string)                  (* a string *)
| AObjectID (n : nat)                   (* primitive.ObjectID *)
| AList (l : list any)                  (* []interface{} *)
| AD (d : D)                            (* bson.D, by value *)
| APtrD (p : option D)                  (* *bson.D *)
| APipeline (stages : list D)           (* mongo.Pipeline *)
| APtrT (p : option T)                  (* *T *)
| APtrSliceT (p : option (list T)).     (* *[]T *)

(** The test [v != nil] on an interface value. *)
Definition is_nil (v : any) : bool :=
  match v with
  | ANil => true
  | _ => false
  end.

End Any.

Arguments ANil {T}.
Arguments AInt {T} n.
Arguments AString {T} s.
Arguments AObjectID {T} n.
Arguments AD {T} d.
Arguments APtrD {T} p.
Arguments APipeline {T} stages.

(** ** The codec: bson.Marshal and bson.Unmarshal *)

(** [Marshal v] is Go's [bson.Marshal(v)]: the encoding and the error.
    [Unmarshal data doc] is [bson.Unmarshal(data, &doc)] for a variable
    [doc] of type [*bson.D]: it returns the value of [doc] after the call
    and the error. *)
Class Bson (T : Type) : Type := {
  Marshal : any T -> list Byte.byte * option error;
  Unmarshal : list Byte.byte -> option D -> option D * option error
}.

(** ** Filter normalizer *)

Section Normalizer.

Context {T : Type} `{Bson T}.

(** [ToBson], repository.go lines 204-217.  The named results [doc] and
    [err] start as nil; the bare [return] after a failed [Marshal] hands
    back the nil [doc] with the error. *)
Definition ToBson (v : any T) : option D * option error :=
  match v with
  | APtrD r => (r, None)
  | _ =>
      let '(data, err) := Marshal v in
      match err with
      | Some e => (None, Some e)
      | None => Unmarshal data None
      end
  end.

End Normalizer.

(** ** Models *)

(** [IMongoModel], repository.go lines 11-13: a model reports the name of
    the collection it lives in. *)
Class IMongoModel (T : Type) : Type := {
  Collection : T -> string
}.

(** How the codec reads and writes a model struct: its zero value, its
    document, and decoding a document into an existing struct.  Decoding
    returns the struct as it stands after the call, also when it fails. *)
Class BsonStruct (T : Type) : Type := {
  bson_zero : T;
  bson_encode : T -> D;
  bson_decode : D -> T -> T * option error
}.

(** An interface value of static type [IMongoModel], as [InitRepository]
    receives it: its dynamic type is either the repository's [T] or some
    other model type, of which only the collection name is kept. *)
Inductive model_value (T : Type) : Type :=
| IsT (t : T)
| OtherModel (collection : string).

Arguments OtherModel {T} collection.

(** ** The driver *)

(** [*mongo.Database]: a handle on a named database. *)
Record mongo_Database : Type := { db_name : string }.

(** [*mongo.Collection]: a handle on a named collection of a database. *)
Record mongo_Collection : Type := {
  c_db : mongo_Database;
  c_name : string
}.

(** The method [Collection] of [*mongo.Database]. *)
Definition Database_Collection (db : mongo_Database) (name : string)
  : mongo_Collection :=
  {| c_db := db; c_name := name |}.

(** The option structs of package [options], with the fields used here. *)
Record FindOneOptions : Type := { fo_Skip : option Z }.
Record FindOptions : Type := { f_Limit : option Z; f_Skip : option Z }.
Record InsertOneOptions : Type := { io_Comment : option string }.
Record InsertManyOptions : Type := { im_Ordered : option bool }.
Record ReplaceOptions : Type := { r_Upsert : option bool }.
Record UpdateOptions : Type := { u_Upsert : option bool }.
Record DeleteOptions : Type := { d_Comment : option string }.

(** [*mongo.SingleResult]: the error of the query and the raw document. *)
Record SingleResult : Type := { sr_err : option error; sr_rdr : D }.

(** [mongo.Cursor]: the documents still to be read, and the error the
    cursor runs into once they are exhausted. *)
Record Cursor : Type := { cur_batch : list D; cur_err : option error }.

Record InsertOneResult (T : Type) : Type := { InsertedID : any T }.
Record InsertManyResult (T : Type) : Type := { InsertedIDs : list (any T) }.
Record UpdateResult : Type := { MatchedCount : Z; ModifiedCount : Z }.
Record DeleteResult : Type := { DeletedCount : Z }.

(** The collection operations the repository calls, over a connection
    state [W].  A Go result [(r *R, err error)] is the pair of an optional
    [R] (None is the nil pointer) and an optional error. *)
Class Driver (T W : Type) : Type := {
  drv_FindOne : mongo_Collection -> any T -> W -> SingleResult * W;
  drv_Find : mongo_Collection -> any T -> list FindOptions -> W ->
             (option Cursor * option error) * W;
  drv_Aggregate : mongo_Collection -> any T -> W -> (option Cursor * option error) * W;
  drv_InsertOne : mongo_Collection -> any T -> list InsertOneOptions -> W ->
                  (option (InsertOneResult T) * option error) * W;
  drv_InsertMany : mongo_Collection -> list (any T) -> list InsertManyOptions -> W ->
                   (option (InsertManyResult T) * option error) * W;
  drv_ReplaceOne : mongo_Collection -> any T -> any T -> list ReplaceOptions -> W ->
                   (option UpdateResult * option error) * W;
  drv_UpdateOne : mongo_Collection -> any T -> any T -> list UpdateOptions -> W ->
                  (option UpdateResult * option error) * W;
  drv_UpdateMany : mongo_Collection -> any T -> any T -> list UpdateOptions -> W ->
                   (option UpdateResult * option error) * W;
  drv_DeleteOne : mongo_Collection -> any T -> list DeleteOptions -> W ->
                  (option DeleteResult * option error) * W;
  drv_DeleteMany : mongo_Collection -> any T -> list DeleteOptions -> W ->
                   (option DeleteResult * option error) * W
}.

(** One call into the driver, with the arguments it was given. *)
Inductive Call (T : Type) : Type :=
| CFindOne (c : mongo_Collection) (filter : any T)
| CFind (c : mongo_Collection) (filter : any T) (opts : list FindOptions)
| CAggregate (c : mongo_Collection) (pipeline : any T)
| CInsertOne (c : mongo_Collection) (document : any T) (opts : list InsertOneOptions)
| CInsertMany (c : mongo_Collection) (documents : list (any T))
    (opts : list InsertManyOptions)
| CReplaceOne (c : mongo_Collection) (filter replacement : any T)
    (opts : list ReplaceOptions)
| CUpdateOne (c : mongo_Collection) (filter update : any T) (opts : list UpdateOptions)
| CUpdateMany (c : mongo_Collection) (filter update : any T) (opts : list UpdateOptions)
| CDeleteOne (c : mongo_Collection) (filter : any T) (opts : list DeleteOptions)
| CDeleteMany (c : mongo_Collection) (filter : any T) (opts : list DeleteOptions).

(** The collection a call was issued on. *)
Definition call_coll {T : Type} (c : Call T) : mongo_Collection :=
  match c with
  | CFindOne c _ | CFind c _ _ | CAggregate c _ | CInsertOne c _ _
  | CInsertMany c _ _ | CReplaceOne c _ _ _ | CUpdateOne c _ _ _
  | CUpdateMany c _ _ _ | CDeleteOne c _ _ | CDeleteMany c _ _ => c
  end.

(** The filter a call carried, for the calls that have one. *)
Definition call_filter {T : Type} (c : Call T) : option (any T) :=
  match c with
  | CFindOne _ f | CFind _ f _ | CReplaceOne _ f _ _ | CUpdateOne _ f _ _
  | CUpdateMany _ f _ _ | CDeleteOne _ f _ | CDeleteMany _ f _ => Some f
  | CAggregate _ _ | CInsertOne _ _ _ | CInsertMany _ _ _ => None
  end.

(** ** Memory, connection and the call log *)

(** The header of a Go slice of type [[]*T]: its backing array (a nil slice
    has none) and its length.  The capacity is the length of the backing
    array; slices start at the first cell of their array. *)
Record Slice : Type := { s_arr : option nat; s_len : nat }.

(** What a method runs against: the model structs and the backing arrays of
    the caller's memory, both by address, the connection state, and the
    driver calls issued so far, oldest first. *)
Record World (T W : Type) : Type := {
  w_objs : list T;
  w_arrays : list (list (option nat));
  w_conn : W;
  w_calls : list (Call T)
}.

(** A Go call returns a value or panics. *)
Inductive Outcome (A : Type) : Type :=
| Val (a : A)
| Panic (reason : string).

Arguments Panic {A} reason.

Section Monad.

Context {T W : Type}.

Definition M (A : Type) : Type := World T W -> Outcome A * World T W.

Definition ret {A : Type} (a : A) : M A := fun w => (Val a, w).

Definition bind {A B : Type} (c : M A) (k : A -> M B) : M B :=
  fun w =>
    match c w with
    | (Val a, w') => k a w'
    | (Panic r, w') => (Panic r, w')
    end.

Definition panic {A : Type} (reason : string) : M A :=
  fun w => (Panic reason, w).

Definition get_objs : M (list T) := fun w => (Val (w_objs w), w).

Definition put_objs (objs : list T) : M unit :=
  fun w => (Val tt, {| w_objs := objs; w_arrays := w_arrays w;
                       w_conn := w_conn w; w_calls := w_calls w |}).

Definition get_arrays : M (list (list (option nat))) :=
  fun w => (Val (w_arrays w), w).

Definition put_arrays (arrays : list (list (option nat))) : M unit :=
  fun w => (Val tt, {| w_objs := w_objs w; w_arrays := arrays;
                       w_conn := w_conn w; w_calls := w_calls w |}).

(** Run one driver operation on the connection and log the call. *)
Definition invoke {R : Type} (c : Call T) (op : W -> R * W) : M R :=
  fun w =>
    let '(r, conn) := op (w_conn w) in
    (Val r, {| w_objs := w_objs w; w_arrays := w_arrays w;
               w_conn := conn; w_calls := w_calls w ++ [c] |}).

End Monad.

Notation "x <- c ;; k" := (bind c (fun x => k))
  (at level 20, c at level 99, k at level 200, only parsing).
Notation "' pat <- c ;; k" := (bind c (fun x => match x with pat => k end))
  (at level 20, pat pattern, c at level 99, k at level 200, only parsing).

(** The elements of a slice, as the holder of the header [s] sees them. *)
Definition slice_elems {T W : Type} (w : World T W) (s : Slice)
  : list (option nat) :=
  match s_arr s with
  | None => []
  | Some a => take (s_len s) (default [] (w_arrays w !! a))
  end.

(** The models a slice of pointers leads to; [None] for a nil element. *)
Definition slice_models {T W : Type} (w : World T W) (s : Slice)
  : list (option T) :=
  map (fun p : option nat =>
         match p with
         | Some a => w_objs w !! a
         | None => None
         end) (slice_elems w s).

(** ** The driver's client side *)

Section Client.

Context {T W : Type} `{BsonStruct T} `{Driver T W}.

(** The methods of [*mongo.Collection]: each is one logged driver call. *)

Definition Collection_FindOne (c : mongo_Collection) (filter : any T)
  : M (T:=T) (W:=W) SingleResult :=
  invoke (CFindOne c filter) (drv_FindOne c filter).

Definition Collection_Find (c : mongo_Collection) (filter : any T)
    (opts : list FindOptions)
  : M (T:=T) (W:=W) (option Cursor * option error) :=
  invoke (CFind c filter opts) (drv_Find c filter opts).

Definition Collection_Aggregate (c : mongo_Collection) (pipeline : any T)
  : M (T:=T) (W:=W) (option Cursor * option error) :=
  invoke (CAggregate c pipeline) (drv_Aggregate c pipeline).

Definition Collection_InsertOne (c : mongo_Collection) (document : any T)
    (opts : list InsertOneOptions)
  : M (T:=T) (W:=W) (option (InsertOneResult T) * option error) :=
  invoke (CInsertOne c document opts) (drv_InsertOne c document opts).

Definition Collection_InsertMany (c : mongo_Collection)
    (documents : list (any T)) (opts : list InsertManyOptions)
  : M (T:=T) (W:=W) (option (InsertManyResult T) * option error) :=
  invoke (CInsertMany c documents opts) (drv_InsertMany c documents opts).

Definition Collection_ReplaceOne (c : mongo_Collection)
    (filter replacement : any T) (opts : list ReplaceOptions)
  : M (T:=T) (W:=W) (option UpdateResult * option error) :=
  invoke (CReplaceOne c filter replacement opts)
         (drv_ReplaceOne c filter replacement opts).

Definition Collection_UpdateOne (c : mongo_Collection)
    (filter update : any T) (opts : list UpdateOptions)
  : M (T:=T) (W:=W) (option UpdateResult * option error) :=
  invoke (CUpdateOne c filter update opts)
         (drv_UpdateOne c filter update opts).

Definition Collection_UpdateMany (c : mongo_Collection)
    (filter update : any T) (opts : list UpdateOptions)
  : M (T:=T) (W:=W) (option UpdateResult * option error) :=
  invoke (CUpdateMany c filter update opts)
         (drv_UpdateMany c filter update opts).

Definition Collection_DeleteOne (c : mongo_Collection) (filter : any T)
    (opts : list DeleteOptions)
  : M (T:=T) (W:=W) (option DeleteResult * option error) :=
  invoke (CDeleteOne c filter opts) (drv_DeleteOne c filter opts).

Definition Collection_DeleteMany (c : mongo_Collection) (filter : any T)
    (opts : list DeleteOptions)
  : M (T:=T) (W:=W) (option DeleteResult * option error) :=
  invoke (CDeleteMany c filter opts) (drv_DeleteMany c filter opts).

(** Decoding one document into a cell of type [*T] (the codec is handed the
    address of the cell).  A nil cell gets a freshly allocated zero struct;
    the document is then decoded into the struct the cell points to.  The
    result is the error and the cell's value after the call. *)
Definition unmarshal_cell (doc : D) (cell : option nat)
  : M (T:=T) (W:=W) (option error * option nat) :=
  objs <- get_objs ;;
  match cell with
  | None =>
      let '(t, err) := bson_decode doc bson_zero in
      _ <- put_objs (objs ++ [t]) ;;
      ret (err, Some (length objs))
  | Some a =>
      match objs !! a with
      | None => panic "invalid memory address"
      | Some t0 =>
          let '(t, err) := bson_decode doc t0 in
          _ <- put_objs (<[a := t]> objs) ;;
          ret (err, Some a)
      end
  end.

(** [SingleResult.Decode(&model)] for a variable [model] of type [*T]:
    a result that carries an error returns it and decodes nothing. *)
Definition SingleResult_Decode (sr : SingleResult) (model : option nat)
  : M (T:=T) (W:=W) (option error * option nat) :=
  match sr_err sr with
  | Some e => ret (Some e, model)
  | None => unmarshal_cell (sr_rdr sr) model
  end.

(** Appending one nil element to a slice and reslicing it to its capacity,
    as [addFromBatch] does when the slice is full.  With room left in the
    backing array the element goes there, and the cells after it come into
    view as they are.  Otherwise the elements are copied to a new array;
    Go leaves its capacity to the runtime, and twice the old capacity (one
    cell for an empty slice) is taken here. *)
Definition grow_slice (s : Slice) : M (T:=T) (W:=W) Slice :=
  arrays <- get_arrays ;;
  let old := match s_arr s with
             | Some a => default [] (arrays !! a)
             | None => []
             end in
  if Nat.ltb (s_len s) (length old) then
    match s_arr s with
    | Some a =>
        _ <- put_arrays (<[a := <[s_len s := None]> old]> arrays) ;;
        ret {| s_arr := Some a; s_len := length old |}
    | None => panic "unreachable"
    end
  else
    let cap := Nat.max 1 (2 * length old) in
    let fresh := take (s_len s) old ++ replicate (cap - s_len s) None in
    _ <- put_arrays (arrays ++ [fresh]) ;;
    ret {| s_arr := Some (length arrays); s_len := cap |}.

(** Cell [i] of the backing array of [s]. *)
Definition load_cell (s : Slice) (i : nat)
  : M (T:=T) (W:=W) (option nat) :=
  arrays <- get_arrays ;;
  match s_arr s with
  | Some a =>
      match default [] (arrays !! a) !! i with
      | Some p => if Nat.ltb i (s_len s) then ret p
                  else panic "index out of range"
      | None => panic "index out of range"
      end
  | None => panic "index out of range"
  end.

Definition store_cell (s : Slice) (i : nat) (p : option nat)
  : M (T:=T) (W:=W) unit :=
  arrays <- get_arrays ;;
  match s_arr s with
  | Some a => put_arrays (<[a := <[i := p]> (default [] (arrays !! a))]> arrays)
  | None => panic "index out of range"
  end.

(** [Cursor.addFromBatch]: decode the documents of the batch into the
    cells of the slice from [index] on, growing the slice when it is full;
    stop at the first document that fails to decode. *)
Fixpoint addFromBatch (docs : list D) (s : Slice) (index : nat)
  : M (T:=T) (W:=W) (option error * Slice * nat) :=
  match docs with
  | [] => ret (None, s, index)
  | doc :: rest =>
      s1 <- (if Nat.eqb (s_len s) index then grow_slice s else ret s) ;;
      cell <- load_cell s1 index ;;
      '(err, cell') <- unmarshal_cell doc cell ;;
      _ <- store_cell s1 index cell' ;;
      match err with
      | Some e => ret (Some e, s1, index)
      | None => addFromBatch rest s1 (S index)
      end
  end.

(** [Cursor.All(&models)] for a variable [models] of type [[]*T]: the
    error, and the value of [models] after the call.  The variable is
    assigned only when every document was decoded.  The receiver is
    dereferenced, so a nil cursor panics. *)
Definition Cursor_All (c : option Cursor) (models : Slice)
  : M (T:=T) (W:=W) (option error * Slice) :=
  match c with
  | None => panic "invalid memory address or nil pointer dereference"
  | Some cur =>
      '(err, s, index) <- addFromBatch (cur_batch cur) models 0 ;;
      match err with
      | Some e => ret (Some e, models)
      | None =>
          match cur_err cur with
          | Some e => ret (Some e, models)
          | None => ret (None, {| s_arr := s_arr s; s_len := index |})
          end
      end
  end.

End Client.

(** ** The repository *)

(** [MongoRepository], repository.go lines 33-37.  The embedded interface
    carries no data. *)
Record MongoRepository (T : Type) : Type := {
  Model : T;
  Database : mongo_Database
}.

(** A pointer of type [*MongoRepository[T]]: where the struct it leads to
    keeps its [Model] field, a cell of the object memory, which a [*T] can
    point to as well, and the handle in its [Database] field.  No method
    assigns a field of its receiver and no [*T] can point to the
    [Database] field, so the handle is part of the pointer. *)
Record Receiver : Type := { r_Model : nat; r_Database : mongo_Database }.

Section Repository.

Context {T W : Type} `{IMongoModel T} `{BsonStruct T} `{Bson T} `{Driver T W}.

Local Abbreviation Method := (M (T:=T) (W:=W)).

(** repository.go lines 39-41. *)
Definition GetDB (mr : MongoRepository T) : mongo_Database := Database mr.

(** repository.go lines 43-45. *)
Definition GetCollection (mr : MongoRepository T) : mongo_Collection :=
  Database_Collection (Database mr) (Collection (Model mr)).

(** repository.go lines 47-71.  [model] is the parameter of type [*T];
    [Decode] receives the address of that parameter, and the value the
    parameter ends with is dropped when the method returns.  [opts] is not
    handed to the driver. *)
Definition FindOne (mr : MongoRepository T) (model : option nat)
    (filter : any T) (opts : list FindOneOptions) : Method (option error) :=
  let '(bson, err) := ToBson filter in
  match err with
  | Some e => ret (Some e)
  | None =>
      res <- Collection_FindOne (GetCollection mr) (APtrD bson) ;;
      '(err, _) <- SingleResult_Decode res model ;;
      match err with
      | Some e =>
          if decide (e = ErrNoDocuments) then ret None else ret (Some e)
      | None => ret None
      end
  end.

(** repository.go lines 73-98.  [models] is the parameter of type [[]*T],
    a copy of the caller's slice header; [All] receives the address of the
    parameter.  The error of [coll.Find] is overwritten by the result of
    [cursor.All] before anything reads it. *)
Definition Find (mr : MongoRepository T) (models : Slice) (filter : any T)
    (aggregate : any T) (opts : list FindOptions) : Method (option error) :=
  let '(bson, err) := ToBson filter in
  match err with
  | Some e => ret (Some e)
  | None =>
      let coll := GetCollection mr in
      _ <- (if is_nil aggregate then ret tt
            else _ <- Collection_Aggregate coll aggregate ;; ret tt) ;;
      '(cursor, _) <- Collection_Find coll (APtrD bson) opts ;;
      '(err, _) <- Cursor_All cursor models ;;
      match err with
      | Some e => ret (Some e)
      | None => ret None
      end
  end.

(** Reading a field of a driver result through its pointer. *)
Definition deref {R A : Type} (result : option R) (field : R -> A)
  : Method A :=
  match result with
  | Some r => ret (field r)
  | None => panic "invalid memory address or nil pointer dereference"
  end.

(** repository.go lines 100-112. *)
Definition InsertOne (mr : MongoRepository T) (model : option T)
    (opts : list InsertOneOptions) : Method (option error * any T) :=
  '(result, err) <- Collection_InsertOne (GetCollection mr) (APtrT model) opts ;;
  match err with
  | Some e => ret (Some e, ANil)
  | None => id <- deref result (@InsertedID T) ;; ret (None, id)
  end.

(** repository.go lines 114-126.  The document list handed to the driver
    is [[]interface{}{models}]: one element, the pointer to the slice. *)
Definition InsertMany (mr : MongoRepository T) (models : option (list T))
    (opts : list InsertManyOptions) : Method (option error * any T) :=
  '(results, err) <-
    Collection_InsertMany (GetCollection mr) [APtrSliceT models] opts ;;
  match err with
  | Some e => ret (Some e, ANil)
  | None => ids <- deref results (@InsertedIDs T) ;; ret (None, AList ids)
  end.

(** repository.go lines 128-140. *)
Definition ReplaceOne (mr : MongoRepository T) (filter : any T)
    (model : option T) (opts : list ReplaceOptions)
  : Method (option error * Z) :=
  '(result, err) <-
    Collection_ReplaceOne (GetCollection mr) filter (APtrT model) opts ;;
  match err with
  | Some e => ret (Some e, 0%Z)
  | None => n <- deref result ModifiedCount ;; ret (None, n)
  end.

(** repository.go lines 142-155. *)
Definition UpdateOne (mr : MongoRepository T) (filter update : any T)
    (opts : list UpdateOptions) : Method (option error * Z) :=
  '(result, err) <-
    Collection_UpdateOne (GetCollection mr) filter update opts ;;
  match err with
  | Some e => ret (Some e, 0%Z)
  | None => n <- deref result ModifiedCount ;; ret (None, n)
  end.

(** repository.go lines 157-169.  The driver is called without [opts]. *)
Definition UpdateMany (mr : MongoRepository T) (filter update : any T)
    (opts : list UpdateOptions) : Method (option error * Z) :=
  '(result, err) <-
    Collection_UpdateMany (GetCollection mr) filter update [] ;;
  match err with
  | Some e => ret (Some e, 0%Z)
  | None => n <- deref result ModifiedCount ;; ret (None, n)
  end.

(** repository.go lines 171-182. *)
Definition DeleteOne (mr : MongoRepository T) (filter : any T)
    (opts : list DeleteOptions) : Method (option error * Z) :=
  '(result, err) <- Collection_DeleteOne (GetCollection mr) filter opts ;;
  match err with
  | Some e => ret (Some e, 0%Z)
  | None => n <- deref result DeletedCount ;; ret (None, n)
  end.

(** repository.go lines 184-195. *)
Definition DeleteMany (mr : MongoRepository T) (filter : any T)
    (opts : list DeleteOptions) : Method (option error * Z) :=
  '(result, err) <- Collection_DeleteMany (GetCollection mr) filter opts ;;
  match err with
  | Some e => ret (Some e, 0%Z)
  | None => n <- deref result DeletedCount ;; ret (None, n)
  end.

(** repository.go lines 197-202.  The type assertion [model.(T)] panics
    when the dynamic type of [model] is not [T]. *)
Definition InitRepository (database : mongo_Database) (model : model_value T)
  : Outcome (MongoRepository T) :=
  match model with
  | IsT t => Val {| Model := t; Database := database |}
  | OtherModel _ => Panic "interface conversion"
  end.

(** *** Sequences of calls *)

(** One CRUD call on a repository, with its arguments. *)
Inductive Op : Type :=
| OpFindOne (model : option nat) (filter : any T) (opts : list FindOneOptions)
| OpFind (models : Slice) (filter aggregate : any T) (opts : list FindOptions)
| OpInsertOne (model : option T) (opts : list InsertOneOptions)
| OpInsertMany (models : option (list T)) (opts : list InsertManyOptions)
| OpReplaceOne (filter : any T) (model : option T) (opts : list ReplaceOptions)
| OpUpdateOne (filter update : any T) (opts : list UpdateOptions)
| OpUpdateMany (filter update : any T) (opts : list UpdateOptions)
| OpDeleteOne (filter : any T) (opts : list DeleteOptions)
| OpDeleteMany (filter : any T) (opts : list DeleteOptions).

(** Run one call and drop what it returns. *)
Definition run_op (mr : MongoRepository T) (op : Op) : Method unit :=
  match op with
  | OpFindOne model filter opts => _ <- FindOne mr model filter opts ;; ret tt
  | OpFind models filter aggregate opts =>
      _ <- Find mr models filter aggregate opts ;; ret tt
  | OpInsertOne model opts => _ <- InsertOne mr model opts ;; ret tt
  | OpInsertMany models opts => _ <- InsertMany mr models opts ;; ret tt
  | OpReplaceOne filter model opts =>
      _ <- ReplaceOne mr filter model opts ;; ret tt
  | OpUpdateOne filter update opts =>
      _ <- UpdateOne mr filter update opts ;; ret tt
  | OpUpdateMany filter update opts =>
      _ <- UpdateMany mr filter update opts ;; ret tt
  | OpDeleteOne filter opts => _ <- DeleteOne mr filter opts ;; ret tt
  | OpDeleteMany filter opts => _ <- DeleteMany mr filter opts ;; ret tt
  end.

(** *** The repository in memory *)

(** The composite literal of [InitRepository] taken by address,
    repository.go line 198: the struct is allocated, its [Model] field in
    a new cell of the object memory. *)
Definition new_repository (database : mongo_Database) (model : model_value T)
  : Method Receiver :=
  match InitRepository database model with
  | Val mr =>
      objs <- get_objs ;;
      _ <- put_objs (objs ++ [Model mr]) ;;
      ret {| r_Model := length objs; r_Database := Database mr |}
  | Panic reason => panic reason
  end.

(** The fields of the struct behind a receiver, as a method finds them.
    Every method reads them once, in [GetCollection], and writes to memory
    only after that, so they are read when the method is entered. *)
Definition receiver_fields (r : Receiver) : Method (MongoRepository T) :=
  objs <- get_objs ;;
  match objs !! r_Model r with
  | Some t => ret {| Model := t; Database := r_Database r |}
  | None => panic "invalid memory address or nil pointer dereference"
  end.

(** One CRUD call through a receiver. *)
Definition call (r : Receiver) (op : Op) : Method unit :=
  mr <- receiver_fields r ;; run_op mr op.

(** The calls in order, each through the receiver; a panic ends the
    sequence. *)
Fixpoint calls (r : Receiver) (ops : list Op) : Method unit :=
  match ops with
  | [] => ret tt
  | op :: rest => _ <- call r op ;; calls r rest
  end.

(** The call decodes into the object at [a]: a [FindOne] whose destination
    is that address. *)
Definition writes_to (a : nat) (op : Op) : Prop :=
  match op with
  | OpFindOne model _ _ => model = Some a
  | _ => False
  end.

End Repository.

(** * Reference instances

    A concrete model type, a codec for the BSON subset of [bval] and an
    in-memory driver.  They instantiate the classes above wherever a
    property is evaluated on concrete data. *)

(** ** A model: users *)

Record User : Type := { Name : string; Age : Z }.

#[global] Instance User_model : IMongoModel User := {
  Collection := fun _ => "users"%string
}.

(** Decode the elements of a document into a [User] one after the other;
    unknown keys are skipped, a value of the wrong type stops the decoding
    with the fields read so far in place. *)
Fixpoint User_decode (d : D) (u : User) : User * option error :=
  match d with
  | [] => (u, None)
  | (k, v) :: rest =>
      if String.eqb k "name" then
        match v with
        | BString s => User_decode rest {| Name := s; Age := Age u |}
        | _ => (u, Some (ErrBson "cannot decode into a string type"))
        end
      else if String.eqb k "age" then
        match v with
        | BInt64 n => User_decode rest {| Name := Name u; Age := n |}
        | _ => (u, Some (ErrBson "cannot decode into an integer type"))
        end
      else User_decode rest u
  end.

#[global] Instance User_struct : BsonStruct User := {
  bson_zero := {| Name := ""; Age := 0 |};
  bson_encode := fun u => [("name"%string, BString (Name u));
                           ("age"%string, BInt64 (Age u))];
  bson_decode := User_decode
}.

(** ** A model that names its collection by a field: notes *)

(** A note lives in the collection its [Kind] names. *)
Record Note : Type := { Kind : string; Title : string }.

#[global] Instance Note_model : IMongoModel Note := {
  Collection := Kind
}.

Fixpoint Note_decode (d : D) (n : Note) : Note * option error :=
  match d with
  | [] => (n, None)
  | (k, v) :: rest =>
      if String.eqb k "kind" then
        match v with
        | BString s => Note_decode rest {| Kind := s; Title := Title n |}
        | _ => (n, Some (ErrBson "cannot decode into a string type"))
        end
      else if String.eqb k "title" then
        match v with
        | BString s => Note_decode rest {| Kind := Kind n; Title := s |}
        | _ => (n, Some (ErrBson "cannot decode into a string type"))
        end
      else Note_decode rest n
  end.

#[global] Instance Note_struct : BsonStruct Note := {
  bson_zero := {| Kind := ""; Title := "" |};
  bson_encode := fun n => [("kind"%string, BString (Kind n));
                           ("title"%string, BString (Title n))];
  bson_decode := Note_decode
}.

(** ** The BSON wire format *)

Module MiniBson.

Import Byte.

Definition byte_of_Z (z : Z) : byte :=
  default x00 (Byte.of_N (Z.to_N (z mod 256))).

Definition Z_of_byte (b : byte) : Z := Z.of_N (Byte.to_N b).

(** [n] bytes of [z], least significant first. *)
Fixpoint le_bytes (n : nat) (z : Z) : list byte :=
  match n with
  | O => []
  | S n' => byte_of_Z z :: le_bytes n' (z / 256)
  end.

(** The unsigned value of little-endian bytes. *)
Fixpoint le_value (bs : list byte) : Z :=
  match bs with
  | [] => 0
  | b :: rest => Z_of_byte b + 256 * le_value rest
  end.

(** A 64-bit pattern read as a signed integer. *)
Definition signed64 (z : Z) : Z :=
  if (z <? 2 ^ 63)%Z then z else (z - 2 ^ 64)%Z.

Definition cstring (s : string) : list byte :=
  list_byte_of_string s ++ [x00].

(** The type byte and the payload of a value; [encode_doc] is the
    document: its length in four bytes, its elements, a zero byte. *)
Fixpoint encode_val (v : bval) : byte * list byte :=
  match v with
  | BNull => (x0a, [])
  | BBool b => (x08, [if b then x01 else x00])
  | BInt64 n => (x12, le_bytes 8 n)
  | BString s =>
      (x02, le_bytes 4 (Z.of_nat (String.length s) + 1) ++ cstring s)
  | BDoc d =>
      let body :=
        (fix elems (l : list (string * bval)) : list byte :=
           match l with
           | [] => [x00]
           | (k, v') :: rest =>
               let '(ty, payload) := encode_val v' in
               ty :: cstring k ++ payload ++ elems rest
           end) d in
      (x03, le_bytes 4 (Z.of_nat (length body) + 4) ++ body)
  end.

Definition encode_doc (d : D) : list byte := snd (encode_val (BDoc d)).

(** Split a zero-terminated string off the front. *)
Fixpoint read_cstring (bs : list byte) : option (list byte * list byte) :=
  match bs with
  | [] => None
  | b :: rest =>
      if Byte.eqb b x00 then Some ([], rest)
      else '(s, rest') ← read_cstring rest; Some (b :: s, rest')
  end.

(** Split [n] bytes off the front. *)
Definition read_n (n : nat) (bs : list byte)
  : option (list byte * list byte) :=
  if decide (n ≤ length bs) then Some (take n bs, drop n bs) else None.

(** The elements of a document up to its closing zero byte, and the bytes
    after it.  An embedded document is read by the same function, one unit
    of [fuel] deeper, and must be as long as its length field says. *)
Fixpoint parse_elems (fuel : nat) (bs : list byte)
  : option (D * list byte) :=
  match fuel with
  | O => None
  | S fuel' =>
      match bs with
      | [] => None
      | ty :: rest =>
          if Byte.eqb ty x00 then Some ([], rest)
          else
            '(key, rest1) ← read_cstring rest;
            '(v, rest2) ←
              (if Byte.eqb ty x0a then Some (BNull, rest1)
               else if Byte.eqb ty x08 then
                 '(b, r) ← read_n 1 rest1;
                 Some (BBool (negb (forallb (Byte.eqb x00) b)), r)
               else if Byte.eqb ty x12 then
                 '(b, r) ← read_n 8 rest1;
                 Some (BInt64 (signed64 (le_value b)), r)
               else if Byte.eqb ty x02 then
                 '(len, r) ← read_n 4 rest1;
                 '(s, r') ← read_cstring r;
                 if decide (le_value len = Z.of_nat (length s) + 1)%Z
                 then Some (BString (string_of_list_byte s), r')
                 else None
               else if Byte.eqb ty x03 then
                 '(len, r) ← read_n 4 rest1;
                 '(d, r') ← parse_elems fuel' r;
                 if decide (le_value len
                            = Z.of_nat (length r - length r') + 4)%Z
                 then Some (BDoc d, r')
                 else None
               else None);
            '(more, rest3) ← parse_elems fuel' rest2;
            Some ((string_of_list_byte key, v) :: more, rest3)
      end
  end.

(** A whole buffer as one document. *)
Definition decode_doc (bs : list byte) : option D :=
  '(len, r) ← read_n 4 bs;
  '(d, r') ← parse_elems (length bs) r;
  if decide (le_value len = Z.of_nat (length bs)) then
    match r' with
    | [] => Some d
    | _ => None
    end
  else None.

End MiniBson.

(** [bson.Marshal]: documents, pointers to documents and pointers to
    structs encode; nil, scalars, slices and nil pointers are not documents
    at top level and fail. *)
Definition ref_Marshal {T : Type} `{BsonStruct T} (v : any T)
  : list Byte.byte * option error :=
  match v with
  | AD d | APtrD (Some d) => (MiniBson.encode_doc d, None)
  | APtrT (Some t) => (MiniBson.encode_doc (bson_encode t), None)
  | _ => ([], Some (ErrBson "cannot marshal value as a BSON document"))
  end.

(** [bson.Unmarshal] into a [*bson.D] variable: the variable is made to
    point to a document before the bytes are read. *)
Definition ref_Unmarshal (data : list Byte.byte) (doc : option D)
  : option D * option error :=
  match MiniBson.decode_doc data with
  | Some d => (Some d, None)
  | None => (Some (default [] doc), Some (ErrBson "invalid document"))
  end.

#[global] Instance ref_Bson {T : Type} `{BsonStruct T} : Bson T := {
  Marshal := ref_Marshal;
  Unmarshal := ref_Unmarshal
}.

(** ** An in-memory driver *)

Module Mem.

#[global] Instance mongo_Database_eq_dec : EqDecision mongo_Database.
Proof. solve_decision. Defined.

#[global] Instance mongo_Collection_eq_dec : EqDecision mongo_Collection.
Proof. solve_decision. Defined.

(** The server: the documents of each collection in insertion order, the
    next identifier to hand out, and the error every request fails with
    while the connection is down. *)
Record Conn : Type := {
  colls : list (mongo_Collection * list D);
  next_id : nat;
  down : option error
}.

Definition docs_of (c : mongo_Collection) (s : Conn) : list D :=
  match find (fun e => bool_decide (fst e = c)) (colls s) with
  | Some e => snd e
  | None => []
  end.

Definition set_docs (c : mongo_Collection) (ds : list D) (s : Conn) : Conn :=
  {| colls := (c, ds) ::
              List.filter (fun e => negb (bool_decide (fst e = c))) (colls s);
     next_id := next_id s;
     down := down s |}.

(** A document matches a filter when it holds every pair of the filter. *)
Definition matches (f d : D) : bool :=
  forallb (fun e : E =>
             match d_lookup (fst e) d with
             | Some v => bval_eqb v (snd e)
             | None => false
             end) f.

Section Ops.

Context {T : Type} `{BsonStruct T}.

(** What the driver does with a document argument: marshal it and read
    the bytes back as a document. *)
Definition to_doc (v : any T) : error + D :=
  match ref_Marshal v with
  | (_, Some e) => inl e
  | (data, None) =>
      match MiniBson.decode_doc data with
      | Some d => inr d
      | None => inl (ErrBson "invalid document")
      end
  end.

(** The identifier of a stored document, as an interface value. *)
Definition id_of (d : D) : any T :=
  match d_lookup "_id" d with
  | Some (BInt64 n) => AObjectID (Z.to_nat n)
  | Some (BString s) => AString s
  | _ => ANil
  end.

(** Give a document an [_id] when it has none. *)
Definition ensure_id (d : D) (s : Conn) : D * Conn :=
  match d_lookup "_id" d with
  | Some _ => (d, s)
  | None =>
      (("_id"%string, BInt64 (Z.of_nat (next_id s))) :: d,
       {| colls := colls s; next_id := S (next_id s); down := down s |})
  end.

(** The last value an option field is given in a list of option structs. *)
Definition last_set {O A : Type} (field : O -> option A) (opts : list O)
  : option A :=
  fold_left (fun acc o => match field o with
                          | Some a => Some a
                          | None => acc
                          end) opts None.

Definition FindOne (c : mongo_Collection) (filter : any T) (s : Conn)
  : SingleResult * Conn :=
  match down s, to_doc filter with
  | Some e, _ | None, inl e => ({| sr_err := Some e; sr_rdr := [] |}, s)
  | None, inr f =>
      match find (matches f) (docs_of c s) with
      | Some d => ({| sr_err := None; sr_rdr := d |}, s)
      | None => ({| sr_err := Some ErrNoDocuments; sr_rdr := [] |}, s)
      end
  end.

Definition Find (c : mongo_Collection) (filter : any T)
    (opts : list FindOptions) (s : Conn)
  : (option Cursor * option error) * Conn :=
  match down s, to_doc filter with
  | Some e, _ | None, inl e => ((None, Some e), s)
  | None, inr f =>
      let found := List.filter (matches f) (docs_of c s) in
      let skipped := match last_set f_Skip opts with
                     | Some n => drop (Z.to_nat n) found
                     | None => found
                     end in
      let limited := match last_set f_Limit opts with
                     | Some n => if (0 <? n)%Z then take (Z.to_nat n) skipped
                                 else skipped
                     | None => skipped
                     end in
      ((Some {| cur_batch := limited; cur_err := None |}, None), s)
  end.

(** Pipelines of [$match] stages are supported. *)
Fixpoint run_pipeline (stages : list D) (ds : list D) : error + list D :=
  match stages with
  | [] => inr ds
  | [(op, BDoc f)] :: rest =>
      if String.eqb op "$match"
      then run_pipeline rest (List.filter (matches f) ds)
      else inl (ErrDriver "unrecognized pipeline stage")
  | _ :: _ => inl (ErrDriver "a pipeline stage must have exactly one field")
  end.

Definition Aggregate (c : mongo_Collection) (pipeline : any T) (s : Conn)
  : (option Cursor * option error) * Conn :=
  match down s with
  | Some e => ((None, Some e), s)
  | None =>
      match pipeline with
      | APipeline stages =>
          match run_pipeline stages (docs_of c s) with
          | inr ds => ((Some {| cur_batch := ds; cur_err := None |}, None), s)
          | inl e => ((None, Some e), s)
          end
      | _ => ((None, Some (ErrDriver "cannot transform value to a pipeline")), s)
      end
  end.

Definition InsertOne (c : mongo_Collection) (document : any T)
    (opts : list InsertOneOptions) (s : Conn)
  : (option (InsertOneResult T) * option error) * Conn :=
  match down s, to_doc document with
  | Some e, _ | None, inl e => ((None, Some e), s)
  | None, inr d =>
      let '(d', s') := ensure_id d s in
      ((Some {| InsertedID := id_of d' |}, None),
       set_docs c (docs_of c s' ++ [d']) s')
  end.

(** Every document is encoded before anything is sent. *)
Fixpoint to_docs (vs : list (any T)) : error + list D :=
  match vs with
  | [] => inr []
  | v :: rest =>
      match to_doc v, to_docs rest with
      | inl e, _ | inr _, inl e => inl e
      | inr d, inr ds => inr (d :: ds)
      end
  end.

Fixpoint ensure_ids (ds : list D) (s : Conn) : list D * Conn :=
  match ds with
  | [] => ([], s)
  | d :: rest =>
      let '(d', s1) := ensure_id d s in
      let '(rest', s2) := ensure_ids rest s1 in
      (d' :: rest', s2)
  end.

Definition InsertMany (c : mongo_Collection) (documents : list (any T))
    (opts : list InsertManyOptions) (s : Conn)
  : (option (InsertManyResult T) * option error) * Conn :=
  match documents with
  | [] => ((None, Some (ErrDriver "must provide at least one element")), s)
  | _ :: _ =>
      match down s, to_docs documents with
      | Some e, _ | None, inl e => ((None, Some e), s)
      | None, inr ds =>
          let '(ds', s') := ensure_ids ds s in
          ((Some {| InsertedIDs := map id_of ds' |}, None),
           set_docs c (docs_of c s' ++ ds') s')
      end
  end.

Definition doc_eqb (a b : D) : bool := bval_eqb (BDoc a) (BDoc b).

(** Rewrite the first document that matches; the second component counts
    the document when the rewriting changed it. *)
Fixpoint update_first (f : D) (g : D -> D) (ds : list D)
  : option (list D * Z) :=
  match ds with
  | [] => None
  | d :: rest =>
      if matches f d
      then Some (g d :: rest, if doc_eqb d (g d) then 0%Z else 1%Z)
      else '(rest', n) ← update_first f g rest; Some (d :: rest', n)
  end.

(** Rewrite every document that matches: the documents, how many matched
    and how many changed. *)
Fixpoint update_all (f : D) (g : D -> D) (ds : list D) : list D * Z * Z :=
  match ds with
  | [] => ([], 0%Z, 0%Z)
  | d :: rest =>
      let '(rest', matched, modified) := update_all f g rest in
      if matches f d
      then (g d :: rest', (matched + 1)%Z,
            if doc_eqb d (g d) then modified else (modified + 1)%Z)
      else (d :: rest', matched, modified)
  end.

(** The replacement keeps the identifier of the document it replaces. *)
Definition keep_id (old new : D) : D :=
  match d_lookup "_id" old with
  | Some i =>
      ("_id"%string, i) ::
      List.filter (fun e : E => negb (String.eqb (fst e) "_id")) new
  | None => new
  end.

Definition apply_set (fields : D) (d : D) : D :=
  fold_left (fun acc (e : E) => d_set (fst e) (snd e) acc) fields d.

(** An update document is one [$set] operator. *)
Definition set_fields (u : D) : error + D :=
  match u with
  | [(op, BDoc fields)] =>
      if String.eqb op "$set" then inr fields
      else inl (ErrDriver "unknown modifier")
  | _ => inl (ErrDriver "update document must contain one operator")
  end.

(** Insert [d] as a new document of [c]. *)
Definition upsert (c : mongo_Collection) (d : D) (s : Conn) : Conn :=
  let '(d', s') := ensure_id d s in
  set_docs c (docs_of c s' ++ [d']) s'.

Definition no_change : option UpdateResult * option error :=
  (Some {| MatchedCount := 0; ModifiedCount := 0 |}, None).

Definition ReplaceOne (c : mongo_Collection) (filter replacement : any T)
    (opts : list ReplaceOptions) (s : Conn)
  : (option UpdateResult * option error) * Conn :=
  match down s, to_doc filter, to_doc replacement with
  | Some e, _, _ | None, inl e, _ | None, inr _, inl e => ((None, Some e), s)
  | None, inr f, inr r =>
      match update_first f (fun old => keep_id old r) (docs_of c s) with
      | Some (ds, n) =>
          ((Some {| MatchedCount := 1; ModifiedCount := n |}, None),
           set_docs c ds s)
      | None =>
          (no_change,
           if default false (last_set r_Upsert opts) then upsert c r s else s)
      end
  end.

Definition UpdateOne (c : mongo_Collection) (filter update : any T)
    (opts : list UpdateOptions) (s : Conn)
  : (option UpdateResult * option error) * Conn :=
  match down s, to_doc filter, to_doc update with
  | Some e, _, _ | None, inl e, _ | None, inr _, inl e => ((None, Some e), s)
  | None, inr f, inr u =>
      match set_fields u with
      | inl e => ((None, Some e), s)
      | inr fields =>
          match update_first f (apply_set fields) (docs_of c s) with
          | Some (ds, n) =>
              ((Some {| MatchedCount := 1; ModifiedCount := n |}, None),
               set_docs c ds s)
          | None =>
              (no_change,
               if default false (last_set u_Upsert opts)
               then upsert c (apply_set fields f) s else s)
          end
      end
  end.

Definition UpdateMany (c : mongo_Collection) (filter update : any T)
    (opts : list UpdateOptions) (s : Conn)
  : (option UpdateResult * option error) * Conn :=
  match down s, to_doc filter, to_doc update with
  | Some e, _, _ | None, inl e, _ | None, inr _, inl e => ((None, Some e), s)
  | None, inr f, inr u =>
      match set_fields u with
      | inl e => ((None, Some e), s)
      | inr fields =>
          let '(ds, matched, modified) :=
            update_all f (apply_set fields) (docs_of c s) in
          if (matched =? 0)%Z then
            (no_change,
             if default false (last_set u_Upsert opts)
             then upsert c (apply_set fields f) s else s)
          else
            ((Some {| MatchedCount := matched; ModifiedCount := modified |},
              None), set_docs c ds s)
      end
  end.

(** Drop the first document that matches. *)
Fixpoint delete_first (f : D) (ds : list D) : option (list D) :=
  match ds with
  | [] => None
  | d :: rest =>
      if matches f d then Some rest
      else rest' ← delete_first f rest; Some (d :: rest')
  end.

Definition DeleteOne (c : mongo_Collection) (filter : any T)
    (opts : list DeleteOptions) (s : Conn)
  : (option DeleteResult * option error) * Conn :=
  match down s, to_doc filter with
  | Some e, _ | None, inl e => ((None, Some e), s)
  | None, inr f =>
      match delete_first f (docs_of c s) with
      | Some ds => ((Some {| DeletedCount := 1 |}, None), set_docs c ds s)
      | None => ((Some {| DeletedCount := 0 |}, None), s)
      end
  end.

Definition DeleteMany (c : mongo_Collection) (filter : any T)
    (opts : list DeleteOptions) (s : Conn)
  : (option DeleteResult * option error) * Conn :=
  match down s, to_doc filter with
  | Some e, _ | None, inl e => ((None, Some e), s)
  | None, inr f =>
      let kept := List.filter (fun d => negb (matches f d)) (docs_of c s) in
      ((Some {| DeletedCount :=
                  Z.of_nat (length (docs_of c s) - length kept) |}, None),
       set_docs c kept s)
  end.

#[global] Instance driver : Driver T Conn := {
  drv_FindOne := FindOne;
  drv_Find := Find;
  drv_Aggregate := Aggregate;
  drv_InsertOne := InsertOne;
  drv_InsertMany := InsertMany;
  drv_ReplaceOne := ReplaceOne;
  drv_UpdateOne := UpdateOne;
  drv_UpdateMany := UpdateMany;
  drv_DeleteOne := DeleteOne;
  drv_DeleteMany := DeleteMany
}.

End Ops.

(** A connection that is up, with no documents. *)
Definition empty : Conn := {| colls := []; next_id := 1; down := None |}.

(** The same server with the connection lost. *)
Definition disconnect (e : error) (s : Conn) : Conn :=
  {| colls := colls s; next_id := next_id s; down := Some e |}.

End Mem.

(** A caller with nothing allocated, talking to the server [conn]. *)
Definition start {T : Type} (conn : Mem.Conn) : World T Mem.Conn :=
  {| w_objs := []; w_arrays := []; w_conn := conn; w_calls := [] |}.

(** ** Fixtures *)

Definition app_db : mongo_Database := {| db_name := "app" |}.

(** The repository [InitRepository] builds for users of [app_db]. *)
Definition users : MongoRepository User :=
  {| Model := bson_zero; Database := app_db |}.

Definition alice : User := {| Name := "a"; Age := 30 |}.
Definition bob : User := {| Name := "b"; Age := 41 |}.

(** The document [{name: a}] and the filter that passes it by value, as a
    [bson.D]. *)
Definition name_a : D := [("name"%string, BString "a")].
Definition by_name_a : any User := AD name_a.

(** A server that holds [alice]. *)
Definition with_alice : Mem.Conn :=
  snd (Mem.InsertOne (GetCollection users) (APtrT (Some alice)) [] Mem.empty).

(** A pipeline of one stage, [$match] on the name of [alice]. *)
Definition match_name_a : any User :=
  APipeline [[("$match"%string, BDoc name_a)]].

(** The update [{$set: {age: 30}}], which changes nothing in [alice]. *)
Definition set_age_30 : any User :=
  AD [("$set"%string, BDoc [("age"%string, BInt64 30)])].

(** The model a repository of notes is built from, and a note filed under
    another kind. *)
Definition blank_note : Note := {| Kind := "notes"; Title := "" |}.
Definition todo_note : Note := {| Kind := "tasks"; Title := "todo" |}.

(** The filter [{title: todo}]. *)
Definition by_title_todo : any Note :=
  AD [("title"%string, BString "todo")].

(** A server whose collection [notes] holds [todo_note]. *)
Definition with_todo : Mem.Conn :=
  snd (Mem.InsertOne (Database_Collection app_db "notes")
         (APtrT (Some todo_note)) [] Mem.empty).

(** The receiver [new_repository] returns to a caller that had nothing
    allocated. *)
Definition first_receiver : Receiver :=
  {| r_Model := 0; r_Database := app_db |}.

(** Calls on a repository of users that decode into the caller's own
    struct and slice. *)
Definition user_session : list (Op (T:=User)) :=
  [OpInsertOne (Some alice) [];
   OpFindOne (Some 0) by_name_a [];
   OpFind {| s_arr := Some 0; s_len := 1 |} by_name_a match_name_a [];
   OpDeleteOne by_name_a []].

(** The nil slice, [var models []*User]. *)
Definition nil_slice : Slice := {| s_arr := None; s_len := 0 |}.

(** The document of [alice] as that server stores it. *)
Definition alice_stored : D :=
  [("_id"%string, BInt64 1); ("name"%string, BString "a");
   ("age"%string, BInt64 30)].

(** A server that holds a document named like [alice] whose age is a
    string. *)
Definition with_bad_age : Mem.Conn :=
  snd (Mem.InsertOne (T:=User) (GetCollection users)
         (AD [("name"%string, BString "a"); ("age"%string, BString "old")])
         [] Mem.empty).

(** A server that holds [bob]. *)
Definition with_bob : Mem.Conn :=
  snd (Mem.InsertOne (GetCollection users) (APtrT (Some bob)) [] Mem.empty).

(** A caller that holds the user [u] at address 0 and a slice of length
    one whose only element points to it. *)
Definition one_slot (u : User) (conn : Mem.Conn) : World User Mem.Conn :=
  {| w_objs := [u]; w_arrays := [[Some 0]];
     w_conn := conn; w_calls := [] |}.

Definition slot_slice : Slice := {| s_arr := Some 0; s_len := 1 |}.

(** * Properties *)

(** ** What a computation does to the call log *)

(** [issues P m]: running [m] only appends calls to the log, and every
    call it appends satisfies [P]. *)
Definition issues {T W A : Type} (P : Call T -> Prop) (m : @M T W A) : Prop :=
  forall w, exists new,
    w_calls (snd (m w)) = w_calls w ++ new /\ Forall P new.

(** ** What a computation does to the caller's memory *)

(** A cell of type [*T] that is nil or points past the first [m] objects. *)
Definition fresh_cell (m : nat) (c : option nat) : Prop :=
  match c with
  | Some b => m <= b
  | None => True
  end.

(** A slice that is nil, or whose backing array lies past the first [n]
    arrays and has fresh cells only. *)
Definition private_slice {T W : Type} (m n : nat) (w : World T W) (s : Slice)
  : Prop :=
  match s_arr s with
  | None => True
  | Some a =>
      n <= a /\
      exists cells, w_arrays w !! a = Some cells /\ Forall (fresh_cell m) cells
  end.

(** The objects [objs0] and the arrays [arrays0] are still where they
    were, with their contents. *)
Definition framed {T W : Type} (objs0 : list T)
    (arrays0 : list (list (option nat))) (w : World T W) : Prop :=
  objs0 `prefix_of` w_objs w /\ arrays0 `prefix_of` w_arrays w.

(** No cell of any backing array points to the object at [a]. *)
Definition unreferenced (a : nat) (arrays : list (list (option nat))) : Prop :=
  Forall (Forall (fun c : option nat => c <> Some a)) arrays.

(** The object at [a] is [t], and no slice element points to it. *)
Definition pinned {T W : Type} (a : nat) (t : T) (w : World T W) : Prop :=
  w_objs w !! a = Some t /\ unreferenced a (w_arrays w).

(** From a world in [P], the computation [c] ends with a value and a world
    in [Q], or panics in a world in [F]. *)
Definition holds {T W A : Type} (P : World T W -> Prop) (c : @M T W A)
    (Q : A -> World T W -> Prop) (F : World T W -> Prop) : Prop :=
  forall w, P w ->
    match c w with
    | (Val a, w') => Q a w'
    | (Panic _, w') => F w'
    end.

(** [quiet m]: running [m] leaves the log and the connection alone. *)
Definition quiet {T W A : Type} (m : @M T W A) : Prop :=
  forall w, w_calls (snd (m w)) = w_calls w /\ w_conn (snd (m w)) = w_conn w.

Section Log.

Context {T W : Type}.

Lemma quiet_ret {A : Type} (a : A) : quiet (@ret T W A a).
Proof. intros w. split; reflexivity. Qed.

Lemma quiet_panic {A : Type} (r : string) : quiet (@panic T W A r).
Proof. intros w. split; reflexivity. Qed.

Lemma quiet_get_objs : quiet (@get_objs T W).
Proof. intros w. split; reflexivity. Qed.

Lemma quiet_put_objs (objs : list T) : quiet (@put_objs T W objs).
Proof. intros w. split; reflexivity. Qed.

Lemma quiet_get_arrays : quiet (@get_arrays T W).
Proof. intros w. split; reflexivity. Qed.

Lemma quiet_put_arrays (a : list (list (option nat))) :
  quiet (@put_arrays T W a).
Proof. intros w. split; reflexivity. Qed.

Lemma quiet_bind {A B : Type} (c : @M T W A) (k : A -> @M T W B) :
  quiet c -> (forall a, quiet (k a)) -> quiet (bind c k).
Proof.
  intros Hc Hk w. unfold bind.
  destruct (Hc w) as [Hl Hn].
  destruct (c w) as [[a | r] w1]; simpl in *.
  - destruct (Hk a w1) as [Hl' Hn']. split; congruence.
  - split; assumption.
Qed.

Lemma quiet_issues {A : Type} (P : Call T -> Prop) (m : @M T W A) :
  quiet m -> issues P m.
Proof.
  intros Hm w. exists []. destruct (Hm w) as [Hl _].
  rewrite Hl, app_nil_r. split; [reflexivity | constructor].
Qed.

Lemma issues_invoke {R : Type} (P : Call T -> Prop) (c : Call T)
    (op : W -> R * W) :
  P c -> issues P (invoke c op).
Proof.
  intros Hc w. exists [c]. unfold invoke.
  destruct (op (w_conn w)) as [r conn]. simpl.
  split; [reflexivity | repeat constructor; assumption].
Qed.

Lemma issues_bind {A B : Type} (P : Call T -> Prop) (c : @M T W A)
    (k : A -> @M T W B) :
  issues P c -> (forall a, issues P (k a)) -> issues P (bind c k).
Proof.
  intros Hc Hk w. unfold bind.
  destruct (Hc w) as (n1 & E1 & F1).
  destruct (c w) as [[a | r] w1]; simpl in *.
  - destruct (Hk a w1) as (n2 & E2 & F2).
    exists (n1 ++ n2). rewrite E2, E1, app_assoc.
    split; [reflexivity | apply Forall_app; split; assumption].
  - exists n1. split; assumption.
Qed.

End Log.

Create HintDb quiet.

#[global] Hint Resolve quiet_ret quiet_panic quiet_get_objs quiet_put_objs
  quiet_get_arrays quiet_put_arrays quiet_bind : quiet.

Section ClientLog.

Context {T W : Type} `{BsonStruct T} `{Driver T W}.

Lemma quiet_unmarshal_cell (doc : D) (cell : option nat) :
  quiet (unmarshal_cell (T:=T) (W:=W) doc cell).
Proof.
  unfold unmarshal_cell. apply quiet_bind; [apply quiet_get_objs |].
  intros objs. destruct cell as [a |].
  - destruct (objs !! a) as [t0 |]; [| apply quiet_panic].
    destruct (bson_decode doc t0). auto 10 with quiet.
  - destruct (bson_decode doc bson_zero). auto 10 with quiet.
Qed.

Lemma quiet_SingleResult_Decode (sr : SingleResult) (model : option nat) :
  quiet (SingleResult_Decode (T:=T) (W:=W) sr model).
Proof.
  unfold SingleResult_Decode. destruct (sr_err sr).
  - apply quiet_ret.
  - apply quiet_unmarshal_cell.
Qed.

Lemma quiet_grow_slice (s : Slice) : quiet (grow_slice (T:=T) (W:=W) s).
Proof.
  unfold grow_slice. apply quiet_bind; [apply quiet_get_arrays |].
  intros arrays. destruct (Nat.ltb _ _).
  - destruct (s_arr s); auto 10 with quiet.
  - auto 10 with quiet.
Qed.

Lemma quiet_load_cell (s : Slice) (i : nat) :
  quiet (load_cell (T:=T) (W:=W) s i).
Proof.
  unfold load_cell. apply quiet_bind; [apply quiet_get_arrays |].
  intros arrays. destruct (s_arr s); [| apply quiet_panic].
  destruct (_ !! i); [| apply quiet_panic].
  destruct (Nat.ltb _ _); auto with quiet.
Qed.

Lemma quiet_store_cell (s : Slice) (i : nat) (p : option nat) :
  quiet (store_cell (T:=T) (W:=W) s i p).
Proof.
  unfold store_cell. apply quiet_bind; [apply quiet_get_arrays |].
  intros arrays. destruct (s_arr s); auto with quiet.
Qed.

Lemma quiet_addFromBatch (docs : list D) :
  forall (s : Slice) (index : nat),
    quiet (addFromBatch (T:=T) (W:=W) docs s index).
Proof.
  induction docs as [| doc rest IH]; intros s index; simpl.
  - apply quiet_ret.
  - apply quiet_bind.
    { destruct (Nat.eqb _ _); [apply quiet_grow_slice | apply quiet_ret]. }
    intros s1. apply quiet_bind; [apply quiet_load_cell |].
    intros cell. apply quiet_bind; [apply quiet_unmarshal_cell |].
    intros [err cell']. apply quiet_bind; [apply quiet_store_cell |].
    intros _. destruct err; [apply quiet_ret | apply IH].
Qed.

Lemma quiet_Cursor_All (c : option Cursor) (models : Slice) :
  quiet (Cursor_All (T:=T) (W:=W) c models).
Proof.
  unfold Cursor_All. destruct c as [cur |]; [| apply quiet_panic].
  apply quiet_bind; [apply quiet_addFromBatch |].
  intros [[err s] index]. destruct err; [apply quiet_ret |].
  destruct (cur_err cur); apply quiet_ret.
Qed.

End ClientLog.

(** ** The filter normalizer *)

Section NormalizerProperties.

Context {T : Type} `{Bson T}.

(** C6. A value that already has the canonical type, [*bson.D], comes back
    from [ToBson] as it is, with no error. *)
Theorem ToBson_identity (p : option D) :
  ToBson (T:=T) (APtrD p) = (p, None).
Proof. reflexivity. Qed.

(** C7. When [ToBson v] succeeds with the document [doc], normalizing
    [doc] again gives the result of normalizing [v] once. *)
Theorem ToBson_idempotent (v : any T) (doc : option D) :
  ToBson v = (doc, None) ->
  ToBson (T:=T) (APtrD doc) = ToBson v.
Proof.
  intros Hv. rewrite Hv. reflexivity.
Qed.

End NormalizerProperties.

(** C7 at the filter [by_name_a], which is serialized and read back. *)
Lemma ToBson_idempotent_witness :
  ToBson by_name_a = (Some name_a, None) /\
  ToBson (T:=User) (APtrD (Some name_a)) = ToBson by_name_a.
Proof.
  split.
  - vm_compute. reflexivity.
  - apply (ToBson_idempotent by_name_a). vm_compute. reflexivity.
Defined.

(** ** The repository *)

Section RepositoryProperties.

Context {T W : Type} `{IMongoModel T} `{BsonStruct T} `{Bson T}
  `{Driver T W}.

Implicit Types (mr : MongoRepository T) (w : World T W).

(** C5. When the driver answers the normalized filter with its
    no-documents signal, [FindOne] returns no error and leaves the
    caller's memory, and with it the destination model, as it was. *)
Theorem FindOne_no_match mr (model : option nat) (filter : any T)
    (opts : list FindOneOptions) w (bson : option D) :
  ToBson filter = (bson, None) ->
  sr_err (fst (drv_FindOne (GetCollection mr) (APtrD bson) (w_conn w)))
  = Some ErrNoDocuments ->
  fst (FindOne mr model filter opts w) = Val None /\
  w_objs (snd (FindOne mr model filter opts w)) = w_objs w /\
  w_arrays (snd (FindOne mr model filter opts w)) = w_arrays w.
Proof.
  intros Hb Hsr. unfold FindOne. rewrite Hb.
  unfold Collection_FindOne, invoke, bind.
  destruct (drv_FindOne _ _ _) as [sr conn]. simpl in Hsr.
  unfold SingleResult_Decode. rewrite Hsr. simpl.
  repeat split; reflexivity.
Qed.

(** With a non-nil [aggregate] and a filter that normalizes to [bson],
    [Find] runs the aggregation on the collection, keeps nothing of what
    it returns, and goes on exactly as a [Find] without aggregation does
    from there. *)
Lemma Find_aggregate_then_find mr (models : Slice)
    (filter aggregate : any T) (opts : list FindOptions) w
    (bson : option D) :
  is_nil aggregate = false ->
  ToBson filter = (bson, None) ->
  let coll := GetCollection mr in
  let after := snd (Collection_Aggregate coll aggregate w) in
  w_calls after = w_calls w ++ [CAggregate coll aggregate] /\
  Find mr models filter aggregate opts w
  = Find mr models filter ANil opts after /\
  w_calls (snd (Find mr models filter aggregate opts w))
  = w_calls w ++ [CAggregate coll aggregate; CFind coll (APtrD bson) opts].
Proof.
  intros Hnil Hb coll after. subst coll after.
  unfold Find. rewrite Hb, Hnil. simpl is_nil. cbv iota.
  unfold Collection_Aggregate, Collection_Find, invoke, bind, ret.
  destruct (drv_Aggregate _ _ _) as [agg conn]. simpl.
  split; [reflexivity |]. split; [reflexivity |].
  destruct (drv_Find _ _ _ _) as [[cursor e] conn'].
  set (w1 := {| w_objs := w_objs w; w_arrays := w_arrays w;
                w_conn := conn'; w_calls := _ |}).
  destruct (quiet_Cursor_All cursor models w1) as [Hl _].
  destruct (Cursor_All cursor models w1) as [[[err s] | r] w2]; simpl in *.
  - destruct err; simpl; rewrite Hl; subst w1; simpl;
      rewrite <- app_assoc; reflexivity.
  - rewrite Hl. subst w1. simpl. rewrite <- app_assoc. reflexivity.
Qed.

(** C8, as amended.  [Find] with a non-nil [aggregate].  When the filter
    normalizes to [bson], the aggregation is run on the collection, nothing
    it returns is kept, and the call goes on exactly as a [Find] without
    aggregation does from there: the driver sees the aggregation and then
    the plain find on the normalized filter.  When [ToBson] rejects the
    filter, [Find] returns that error and nothing is run. *)
Theorem Find_aggregate_discarded mr (models : Slice)
    (filter aggregate : any T) (opts : list FindOptions) w :
  is_nil aggregate = false ->
  match ToBson filter with
  | (bson, None) =>
      w_calls (snd (Collection_Aggregate (GetCollection mr) aggregate w))
      = w_calls w ++ [CAggregate (GetCollection mr) aggregate] /\
      Find mr models filter aggregate opts w
      = Find mr models filter ANil opts
          (snd (Collection_Aggregate (GetCollection mr) aggregate w)) /\
      w_calls (snd (Find mr models filter aggregate opts w))
      = w_calls w ++ [CAggregate (GetCollection mr) aggregate;
                      CFind (GetCollection mr) (APtrD bson) opts]
  | (_, Some e) => Find mr models filter aggregate opts w = (Val (Some e), w)
  end.
Proof.
  intros Hnil. destruct (ToBson filter) as [bson [e |]] eqn:Hb.
  - unfold Find. rewrite Hb. reflexivity.
  - apply (Find_aggregate_then_find mr models filter aggregate opts w Hnil Hb).
Qed.

(** C10. [UpdateMany] gives the same outcome whatever modifiers it is
    given: the driver is called with none.  [UpdateOne] hands its modifiers
    to the driver. *)
Theorem UpdateMany_ignores_opts mr (filter update : any T)
    (opts1 opts2 : list UpdateOptions) w :
  UpdateMany mr filter update opts1 w = UpdateMany mr filter update opts2 w /\
  w_calls (snd (UpdateMany mr filter update opts1 w))
  = w_calls w ++ [CUpdateMany (GetCollection mr) filter update []] /\
  w_calls (snd (UpdateOne mr filter update opts1 w))
  = w_calls w ++ [CUpdateOne (GetCollection mr) filter update opts1].
Proof.
  split; [reflexivity |].
  unfold UpdateMany, UpdateOne, Collection_UpdateMany, Collection_UpdateOne,
    invoke, bind.
  split.
  - destruct (drv_UpdateMany _ _ _ _ _) as [[[r |] [e |]] conn]; reflexivity.
  - destruct (drv_UpdateOne _ _ _ _ _) as [[[r |] [e |]] conn]; reflexivity.
Qed.

End RepositoryProperties.

(** ** The driver calls of each method *)

Section Calls.

Context {T W : Type} `{IMongoModel T} `{BsonStruct T} `{Bson T}
  `{Driver T W}.

Implicit Types (mr : MongoRepository T) (w : World T W).

Lemma FindOne_calls mr (model : option nat) (filter : any T)
    (opts : list FindOneOptions) w :
  w_calls (snd (FindOne mr model filter opts w))
  = w_calls w ++
    match ToBson filter with
    | (bson, None) => [CFindOne (GetCollection mr) (APtrD bson)]
    | (_, Some _) => []
    end.
Proof.
  unfold FindOne. destruct (ToBson filter) as [bson [e |]].
  - simpl. rewrite app_nil_r. reflexivity.
  - unfold Collection_FindOne, invoke, bind.
    destruct (drv_FindOne _ _ _) as [sr conn].
    set (w1 := {| w_objs := w_objs w; w_arrays := w_arrays w;
                  w_conn := conn; w_calls := _ |}).
    destruct (quiet_SingleResult_Decode sr model w1) as [Hl _].
    destruct (SingleResult_Decode sr model w1) as [[[err m] | r] w2];
      simpl in *; [| exact Hl].
    destruct err as [e |]; [destruct (decide (e = ErrNoDocuments)) |];
      exact Hl.
Qed.

Lemma Find_calls mr (models : Slice) (filter aggregate : any T)
    (opts : list FindOptions) w :
  w_calls (snd (Find mr models filter aggregate opts w))
  = w_calls w ++
    match ToBson filter with
    | (bson, None) =>
        (if is_nil aggregate then []
         else [CAggregate (GetCollection mr) aggregate])
        ++ [CFind (GetCollection mr) (APtrD bson) opts]
    | (_, Some _) => []
    end.
Proof.
  unfold Find. destruct (ToBson filter) as [bson [e |]].
  - simpl. rewrite app_nil_r. reflexivity.
  - unfold Collection_Aggregate, Collection_Find, invoke, bind, ret.
    destruct (is_nil aggregate).
    + destruct (drv_Find _ _ _ _) as [[cursor e] conn].
      set (w1 := {| w_objs := w_objs w; w_arrays := w_arrays w;
                    w_conn := conn; w_calls := _ |}).
      destruct (quiet_Cursor_All cursor models w1) as [Hl _].
      destruct (Cursor_All cursor models w1) as [[[err s] | r] w2];
        simpl in *; [destruct err |]; exact Hl.
    + destruct (drv_Aggregate _ _ _) as [agg conn0]. simpl.
      destruct (drv_Find _ _ _ _) as [[cursor e] conn].
      set (w1 := {| w_objs := w_objs w; w_arrays := w_arrays w;
                    w_conn := conn; w_calls := _ |}).
      destruct (quiet_Cursor_All cursor models w1) as [Hl _].
      destruct (Cursor_All cursor models w1) as [[[err s] | r] w2];
        simpl in *; [destruct err |]; simpl; rewrite Hl; subst w1; simpl;
        rewrite <- app_assoc; reflexivity.
Qed.

Lemma InsertOne_calls mr (model : option T) (opts : list InsertOneOptions) w :
  w_calls (snd (InsertOne mr model opts w))
  = w_calls w ++ [CInsertOne (GetCollection mr) (APtrT model) opts].
Proof.
  unfold InsertOne, Collection_InsertOne, invoke, bind.
  destruct (drv_InsertOne _ _ _ _) as [[[r |] [e |]] conn]; reflexivity.
Qed.

Lemma InsertMany_calls mr (models : option (list T))
    (opts : list InsertManyOptions) w :
  w_calls (snd (InsertMany mr models opts w))
  = w_calls w ++ [CInsertMany (GetCollection mr) [APtrSliceT models] opts].
Proof.
  unfold InsertMany, Collection_InsertMany, invoke, bind.
  destruct (drv_InsertMany _ _ _ _) as [[[r |] [e |]] conn]; reflexivity.
Qed.

Lemma ReplaceOne_calls mr (filter : any T) (model : option T)
    (opts : list ReplaceOptions) w :
  w_calls (snd (ReplaceOne mr filter model opts w))
  = w_calls w ++ [CReplaceOne (GetCollection mr) filter (APtrT model) opts].
Proof.
  unfold ReplaceOne, Collection_ReplaceOne, invoke, bind.
  destruct (drv_ReplaceOne _ _ _ _ _) as [[[r |] [e |]] conn]; reflexivity.
Qed.

Lemma UpdateOne_calls mr (filter update : any T) (opts : list UpdateOptions) w :
  w_calls (snd (UpdateOne mr filter update opts w))
  = w_calls w ++ [CUpdateOne (GetCollection mr) filter update opts].
Proof.
  unfold UpdateOne, Collection_UpdateOne, invoke, bind.
  destruct (drv_UpdateOne _ _ _ _ _) as [[[r |] [e |]] conn]; reflexivity.
Qed.

Lemma UpdateMany_calls mr (filter update : any T) (opts : list UpdateOptions) w :
  w_calls (snd (UpdateMany mr filter update opts w))
  = w_calls w ++ [CUpdateMany (GetCollection mr) filter update []].
Proof.
  unfold UpdateMany, Collection_UpdateMany, invoke, bind.
  destruct (drv_UpdateMany _ _ _ _ _) as [[[r |] [e |]] conn]; reflexivity.
Qed.

Lemma DeleteOne_calls mr (filter : any T) (opts : list DeleteOptions) w :
  w_calls (snd (DeleteOne mr filter opts w))
  = w_calls w ++ [CDeleteOne (GetCollection mr) filter opts].
Proof.
  unfold DeleteOne, Collection_DeleteOne, invoke, bind.
  destruct (drv_DeleteOne _ _ _ _) as [[[r |] [e |]] conn]; reflexivity.
Qed.

Lemma DeleteMany_calls mr (filter : any T) (opts : list DeleteOptions) w :
  w_calls (snd (DeleteMany mr filter opts w))
  = w_calls w ++ [CDeleteMany (GetCollection mr) filter opts].
Proof.
  unfold DeleteMany, Collection_DeleteMany, invoke, bind.
  destruct (drv_DeleteMany _ _ _ _) as [[[r |] [e |]] conn]; reflexivity.
Qed.

(** C3, as amended.  The driver calls of the seven methods that take a
    filter.  [FindOne] and [Find] hand the driver the filter [ToBson] made
    of the caller's, and make no driver call at all when [ToBson] fails;
    [ReplaceOne], [UpdateOne], [UpdateMany], [DeleteOne] and [DeleteMany]
    hand the driver the caller's filter as it came. *)
Theorem filter_normalized_by_finds_only mr (filter : any T) w :
  (forall model opts,
      w_calls (snd (FindOne mr model filter opts w))
      = w_calls w ++
        match ToBson filter with
        | (bson, None) => [CFindOne (GetCollection mr) (APtrD bson)]
        | (_, Some _) => []
        end) /\
  (forall models aggregate opts,
      w_calls (snd (Find mr models filter aggregate opts w))
      = w_calls w ++
        match ToBson filter with
        | (bson, None) =>
            (if is_nil aggregate then []
             else [CAggregate (GetCollection mr) aggregate])
            ++ [CFind (GetCollection mr) (APtrD bson) opts]
        | (_, Some _) => []
        end) /\
  (forall model opts,
      w_calls (snd (ReplaceOne mr filter model opts w))
      = w_calls w
        ++ [CReplaceOne (GetCollection mr) filter (APtrT model) opts]) /\
  (forall update opts,
      w_calls (snd (UpdateOne mr filter update opts w))
      = w_calls w ++ [CUpdateOne (GetCollection mr) filter update opts]) /\
  (forall update opts,
      w_calls (snd (UpdateMany mr filter update opts w))
      = w_calls w ++ [CUpdateMany (GetCollection mr) filter update []]) /\
  (forall opts,
      w_calls (snd (DeleteOne mr filter opts w))
      = w_calls w ++ [CDeleteOne (GetCollection mr) filter opts]) /\
  (forall opts,
      w_calls (snd (DeleteMany mr filter opts w))
      = w_calls w ++ [CDeleteMany (GetCollection mr) filter opts]).
Proof.
  repeat split; intros.
  - apply FindOne_calls.
  - apply Find_calls.
  - apply ReplaceOne_calls.
  - apply UpdateOne_calls.
  - apply UpdateMany_calls.
  - apply DeleteOne_calls.
  - apply DeleteMany_calls.
Qed.

End Calls.

(** ** The collection of each call, and the errors of the driver *)

Section Target.

Context {T W : Type} `{IMongoModel T} `{BsonStruct T} `{Bson T}
  `{Driver T W}.

Implicit Types (mr : MongoRepository T) (w : World T W).

Lemma run_op_issues mr (op : Op) :
  issues (fun k => call_coll k = GetCollection mr) (run_op (W:=W) mr op).
Proof.
  destruct op; simpl;
    (apply issues_bind; [| intros; apply quiet_issues, quiet_ret]);
    intros w; eexists; (split; [
      first [ apply FindOne_calls | apply Find_calls | apply InsertOne_calls
            | apply InsertMany_calls | apply ReplaceOne_calls
            | apply UpdateOne_calls | apply UpdateMany_calls
            | apply DeleteOne_calls | apply DeleteMany_calls ] |]);
    try (repeat constructor; fail).
  - destruct (ToBson filter) as [bson [e |]]; repeat constructor.
  - destruct (ToBson filter) as [bson [e |]]; [constructor |].
    destruct (is_nil aggregate); repeat constructor.
Qed.

(** A driver error comes back as it is from the insert, replace, update
    and delete methods. *)
Lemma driver_error_returned mr w (e : error) :
  (forall model opts r conn,
      drv_InsertOne (GetCollection mr) (APtrT model) opts (w_conn w)
      = ((r, Some e), conn) ->
      fst (InsertOne mr model opts w) = Val (Some e, ANil)) /\
  (forall models opts r conn,
      drv_InsertMany (GetCollection mr) [APtrSliceT models] opts (w_conn w)
      = ((r, Some e), conn) ->
      fst (InsertMany mr models opts w) = Val (Some e, ANil)) /\
  (forall filter model opts r conn,
      drv_ReplaceOne (GetCollection mr) filter (APtrT model) opts (w_conn w)
      = ((r, Some e), conn) ->
      fst (ReplaceOne mr filter model opts w) = Val (Some e, 0%Z)) /\
  (forall filter update opts r conn,
      drv_UpdateOne (GetCollection mr) filter update opts (w_conn w)
      = ((r, Some e), conn) ->
      fst (UpdateOne mr filter update opts w) = Val (Some e, 0%Z)) /\
  (forall filter update opts r conn,
      drv_UpdateMany (GetCollection mr) filter update [] (w_conn w)
      = ((r, Some e), conn) ->
      fst (UpdateMany mr filter update opts w) = Val (Some e, 0%Z)) /\
  (forall filter opts r conn,
      drv_DeleteOne (GetCollection mr) filter opts (w_conn w)
      = ((r, Some e), conn) ->
      fst (DeleteOne mr filter opts w) = Val (Some e, 0%Z)) /\
  (forall filter opts r conn,
      drv_DeleteMany (GetCollection mr) filter opts (w_conn w)
      = ((r, Some e), conn) ->
      fst (DeleteMany mr filter opts w) = Val (Some e, 0%Z)).
Proof.
  repeat split; intros * Hd;
    unfold InsertOne, InsertMany, ReplaceOne, UpdateOne, UpdateMany,
      DeleteOne, DeleteMany, Collection_InsertOne, Collection_InsertMany,
      Collection_ReplaceOne, Collection_UpdateOne, Collection_UpdateMany,
      Collection_DeleteOne, Collection_DeleteMany, invoke, bind;
    rewrite Hd; reflexivity.
Qed.

(** [Find] never reads the error of the driver's find: with a nil cursor
    beside it, the call ends in the panic of [cursor.All]. *)
Lemma Find_driver_error_dropped mr (models : Slice) (filter : any T)
    (opts : list FindOptions) w (bson : option D) (e : error) (conn : W) :
  ToBson filter = (bson, None) ->
  drv_Find (GetCollection mr) (APtrD bson) opts (w_conn w)
  = ((None, Some e), conn) ->
  fst (Find mr models filter ANil opts w)
  = Panic "invalid memory address or nil pointer dereference".
Proof.
  intros Hb Hd. unfold Find. rewrite Hb. simpl.
  unfold Collection_Find, invoke, bind, ret. rewrite Hd. reflexivity.
Qed.

(** The caller of [Find] keeps its own slice header: it sees no more
    elements after the call than its slice had before. *)
Lemma caller_keeps_its_length w (models : Slice) :
  length (slice_models w models) <= s_len models.
Proof.
  unfold slice_models, slice_elems. rewrite length_map.
  destruct (s_arr models); simpl; [| lia].
  rewrite length_take. lia.
Qed.

End Target.

(** ** The methods on the in-memory driver *)

(** C5 at a server that holds only [bob], asked for the name of
    [alice]: the destination still holds what it held. *)
Lemma FindOne_no_match_witness :
  ToBson by_name_a = (Some name_a, None) /\
  sr_err (fst (drv_FindOne (GetCollection users) (APtrD (Some name_a))
                           (w_conn (one_slot alice with_bob))))
  = Some ErrNoDocuments /\
  fst (FindOne users (Some 0) by_name_a [] (one_slot alice with_bob))
  = Val None /\
  w_objs (snd (FindOne users (Some 0) by_name_a [] (one_slot alice with_bob)))
  = [alice] /\
  w_arrays (snd (FindOne users (Some 0) by_name_a [] (one_slot alice with_bob)))
  = [[Some 0]].
Proof.
  split; [vm_compute; reflexivity |].
  split; [vm_compute; reflexivity |].
  apply (FindOne_no_match users (Some 0) by_name_a []
           (one_slot alice with_bob) (bson:=Some name_a));
    vm_compute; reflexivity.
Defined.

(** C8, as amended, at a one-stage pipeline and a filter that normalizes,
    on a server that holds [alice]. *)
Lemma Find_aggregate_discarded_witness :
  is_nil match_name_a = false /\
  w_calls (snd (Collection_Aggregate (GetCollection users) match_name_a
                  (start with_alice)))
  = [CAggregate (GetCollection users) match_name_a] /\
  Find users nil_slice by_name_a match_name_a [] (start with_alice)
  = Find users nil_slice by_name_a ANil []
      (snd (Collection_Aggregate (GetCollection users) match_name_a
              (start with_alice))) /\
  w_calls (snd (Find users nil_slice by_name_a match_name_a []
                  (start with_alice)))
  = [CAggregate (GetCollection users) match_name_a;
     CFind (GetCollection users) (APtrD (Some name_a)) []].
Proof.
  split; [reflexivity |].
  assert (Hb : ToBson by_name_a = (Some name_a, None))
    by (vm_compute; reflexivity).
  pose proof (Find_aggregate_discarded users nil_slice by_name_a
                match_name_a [] (start with_alice) eq_refl) as Hfind.
  rewrite Hb in Hfind. exact Hfind.
Defined.

(** C8 fails as stated: with a non-nil pipeline and a filter [ToBson]
    rejects, [Find] returns the error of [ToBson] and the driver is not
    called, for the aggregation or for anything else. *)
Lemma Find_rejected_filter_runs_no_aggregation :
  is_nil match_name_a = false /\
  Find users nil_slice (AInt 5) match_name_a [] (start with_alice)
  = (Val (Some (ErrBson "cannot marshal value as a BSON document")),
     start with_alice) /\
  w_calls (snd (Find users nil_slice (AInt 5) match_name_a []
                  (start with_alice)))
  = [].
Proof. repeat split; vm_compute; reflexivity. Qed.

(** C3 fails at [DeleteOne]: the one call the driver gets carries the
    caller's [bson.D] value, not the [*bson.D] that [ToBson] makes of it. *)
Lemma DeleteOne_filter_not_normalized :
  ToBson by_name_a = (Some name_a, None) /\
  w_calls (snd (DeleteOne users by_name_a [] (start with_alice)))
  = [CDeleteOne (GetCollection users) by_name_a []] /\
  w_calls (snd (DeleteOne users by_name_a [] (start with_alice)))
  <> [CDeleteOne (GetCollection users) (APtrD (Some name_a)) []].
Proof.
  split; [vm_compute; reflexivity |].
  split; [vm_compute; reflexivity |].
  vm_compute. discriminate.
Qed.

(** A filter [ToBson] rejects still reaches the driver through
    [DeleteOne]; the error that comes back is the driver's. *)
Example DeleteOne_filter_not_checked :
  snd (ToBson (T:=User) (AInt 5))
  = Some (ErrBson "cannot marshal value as a BSON document") /\
  w_calls (snd (DeleteOne users (AInt 5) [] (start with_alice)))
  = [CDeleteOne (GetCollection users) (AInt 5) []].
Proof. split; vm_compute; reflexivity. Qed.

(** C1 on two valid users: the driver is handed one document, the pointer
    to the slice, which is no document; the call returns the driver's
    error and no identifier, and nothing is stored. *)
Theorem InsertMany_two_models :
  w_calls (snd (InsertMany users (Some [alice; bob]) [] (start Mem.empty)))
  = [CInsertMany (GetCollection users) [APtrSliceT (Some [alice; bob])] []] /\
  fst (InsertMany users (Some [alice; bob]) [] (start Mem.empty))
  = Val (Some (ErrBson "cannot marshal value as a BSON document"), ANil) /\
  w_conn (snd (InsertMany users (Some [alice; bob]) [] (start Mem.empty)))
  = Mem.empty.
Proof. repeat split; vm_compute; reflexivity. Qed.

(** The same two users go in one at a time. *)
Example InsertOne_twice :
  fst (InsertOne users (Some alice) [] (start Mem.empty))
  = Val (None, AObjectID 1) /\
  fst (InsertOne users (Some bob) [] (start with_alice))
  = Val (None, AObjectID 2).
Proof. split; vm_compute; reflexivity. Qed.

(** C2 on a lost connection: the driver's find fails with an error and a
    nil cursor, and [Find] panics instead of returning that error. *)
Theorem Find_driver_error_lost :
  fst (drv_Find (T:=User) (GetCollection users) (APtrD (Some name_a)) []
         (Mem.disconnect (ErrDriver "connection refused") with_alice))
  = (None, Some (ErrDriver "connection refused")) /\
  fst (Find users nil_slice by_name_a ANil []
         (start (Mem.disconnect (ErrDriver "connection refused") with_alice)))
  = Panic "invalid memory address or nil pointer dereference".
Proof. split; vm_compute; reflexivity. Qed.

(** On the same connection [DeleteOne] returns the driver's error. *)
Example DeleteOne_driver_error :
  fst (DeleteOne users by_name_a []
         (start (Mem.disconnect (ErrDriver "connection refused") with_alice)))
  = Val (Some (ErrDriver "connection refused"), 0%Z).
Proof. vm_compute. reflexivity. Qed.

(** C4 on a nil destination: the find succeeds, the server holds a
    matching document, and the caller's slice is as empty as before. *)
Theorem Find_result_not_visible :
  fst (Find users nil_slice by_name_a ANil [] (start with_alice)) = Val None /\
  List.filter (Mem.matches name_a)
              (Mem.docs_of (GetCollection users) with_alice)
  = [[("_id"%string, BInt64 1); ("name"%string, BString "a");
      ("age"%string, BInt64 30)]] /\
  slice_models (snd (Find users nil_slice by_name_a ANil [] (start with_alice)))
               nil_slice
  = [].
Proof. repeat split; vm_compute; reflexivity. Qed.

(** A destination that already has an element is written through it. *)
Example Find_into_existing_element :
  fst (Find users slot_slice by_name_a ANil [] (one_slot bob with_alice))
  = Val None /\
  slice_models
    (snd (Find users slot_slice by_name_a ANil [] (one_slot bob with_alice)))
    slot_slice
  = [Some alice].
Proof. split; vm_compute; reflexivity. Qed.

(** [FindOne] on a match decodes into the caller's model. *)
Example FindOne_match :
  fst (FindOne users (Some 0) by_name_a [] (one_slot bob with_alice))
  = Val None /\
  w_objs (snd (FindOne users (Some 0) by_name_a [] (one_slot bob with_alice)))
  = [alice].
Proof. split; vm_compute; reflexivity. Qed.

(** The option [Upsert] acts through [UpdateOne] and not through
    [UpdateMany]. *)
Example upsert_through_UpdateOne_only :
  let set_age : any User :=
    AD [("$set"%string, BDoc [("age"%string, BInt64 31)])] in
  let upsert := [{| u_Upsert := Some true |}] in
  Mem.docs_of (GetCollection users)
    (w_conn (snd (UpdateOne users by_name_a set_age upsert (start Mem.empty))))
  = [[("_id"%string, BInt64 1); ("name"%string, BString "a");
      ("age"%string, BInt64 31)]] /\
  Mem.docs_of (GetCollection users)
    (w_conn (snd (UpdateMany users by_name_a set_age upsert (start Mem.empty))))
  = [].
Proof. split; vm_compute; reflexivity. Qed.

(** On the in-memory driver the no-documents signal is what a filter that
    no stored document matches gets. *)
Lemma Mem_FindOne_zero_matches {T : Type} `{BsonStruct T}
    (c : mongo_Collection) (v : any T) (f : D) (s : Mem.Conn) :
  Mem.down s = None ->
  Mem.to_doc v = inr f ->
  List.filter (Mem.matches f) (Mem.docs_of c s) = [] ->
  sr_err (fst (Mem.FindOne c v s)) = Some ErrNoDocuments.
Proof.
  intros Hup Hf Hnone. unfold Mem.FindOne. rewrite Hup, Hf.
  destruct (find (Mem.matches f) (Mem.docs_of c s)) as [d |] eqn:Hfind;
    [| reflexivity].
  apply find_some in Hfind. destruct Hfind as [Hin Hm].
  assert (Hd : In d (List.filter (Mem.matches f) (Mem.docs_of c s)))
    by (apply filter_In; split; assumption).
  rewrite Hnone in Hd. destruct Hd.
Qed.

(** * Further properties of the repository *)

(** ** When the normalizer fails *)

Section NormalizerErrors.

Context {T : Type} `{Bson T}.

(** X1. [ToBson] fails with [e] exactly when the value is not a
    [*bson.D] and either [Marshal] fails with [e], or [Marshal] succeeds
    and [Unmarshal] of its bytes fails with [e]. *)
Theorem ToBson_error_cases (v : any T) (e : error) :
  snd (ToBson v) = Some e <->
  (forall p, v <> APtrD p) /\
  (snd (Marshal v) = Some e \/
   (snd (Marshal v) = None /\
    snd (Unmarshal (fst (Marshal v)) None) = Some e)).
Proof.
  assert (Hslow : forall v' : any T,
             (forall p, v' <> APtrD p) ->
             ToBson v'
             = (let '(data, err) := Marshal v' in
                match err with
                | Some e' => (None, Some e')
                | None => Unmarshal data None
                end)).
  { intros v' Hv'. destruct v'; try reflexivity.
    exfalso. apply (Hv' p). reflexivity. }
  split.
  - intros He.
    assert (Hp : forall p, v <> APtrD p).
    { intros p ->. simpl in He. discriminate. }
    split; [exact Hp |]. rewrite (Hslow v Hp) in He.
    destruct (Marshal v) as [data [e' |]]; simpl in *.
    + left. exact He.
    + right. split; [reflexivity | exact He].
  - intros [Hp Hcases]. rewrite (Hslow v Hp).
    destruct (Marshal v) as [data [e' |]]; simpl in *;
      destruct Hcases as [He | [Hn He]]; try discriminate; assumption.
Qed.

End NormalizerErrors.

Section FindErrors.

Context {T W : Type} `{IMongoModel T} `{BsonStruct T} `{Bson T}
  `{Driver T W}.

Implicit Types (mr : MongoRepository T) (w : World T W).

(** X2. When [ToBson] rejects the filter, [FindOne] and [Find] return its
    error and leave everything as it was: no driver call, no write. *)
Theorem normalization_error_stops_find mr (model : option nat)
    (models : Slice) (filter aggregate : any T)
    (fopts : list FindOneOptions) (opts : list FindOptions) w (e : error) :
  snd (ToBson filter) = Some e ->
  FindOne mr model filter fopts w = (Val (Some e), w) /\
  Find mr models filter aggregate opts w = (Val (Some e), w).
Proof.
  intros He. unfold FindOne, Find.
  destruct (ToBson filter) as [bson err]. simpl in He. subst err.
  split; reflexivity.
Qed.

(** X3. An error of the driver's find-one other than the no-documents
    signal comes back from [FindOne] as it is, and nothing is written. *)
Theorem FindOne_driver_error mr (model : option nat) (filter : any T)
    (opts : list FindOneOptions) w (bson : option D) (e : error) :
  ToBson filter = (bson, None) ->
  sr_err (fst (drv_FindOne (GetCollection mr) (APtrD bson) (w_conn w)))
  = Some e ->
  e <> ErrNoDocuments ->
  fst (FindOne mr model filter opts w) = Val (Some e) /\
  w_objs (snd (FindOne mr model filter opts w)) = w_objs w /\
  w_arrays (snd (FindOne mr model filter opts w)) = w_arrays w.
Proof.
  intros Hb Hsr Hne. unfold FindOne. rewrite Hb.
  unfold Collection_FindOne, invoke, bind.
  destruct (drv_FindOne _ _ _) as [sr conn]. simpl in Hsr.
  unfold SingleResult_Decode. rewrite Hsr. simpl.
  destruct (decide (e = ErrNoDocuments)); [contradiction |].
  repeat split; reflexivity.
Qed.

(** X4. The modifiers given to [FindOne] change nothing: the method never
    hands them to the driver. *)
Theorem FindOne_ignores_opts mr (model : option nat) (filter : any T)
    (opts1 opts2 : list FindOneOptions) w :
  FindOne mr model filter opts1 w = FindOne mr model filter opts2 w.
Proof. reflexivity. Qed.


(** X6. With a nil destination [FindOne] does not panic on a match: the
    document is decoded into a struct allocated for the call, and every
    object and array the caller holds is as it was. *)
Theorem FindOne_nil_model mr (filter : any T) (opts : list FindOneOptions)
    w (bson : option D) :
  ToBson filter = (bson, None) ->
  sr_err (fst (drv_FindOne (GetCollection mr) (APtrD bson) (w_conn w)))
  = None ->
  (exists r, fst (FindOne mr None filter opts w) = Val r) /\
  take (length (w_objs w)) (w_objs (snd (FindOne mr None filter opts w)))
  = w_objs w /\
  w_arrays (snd (FindOne mr None filter opts w)) = w_arrays w.
Proof.
  intros Hb Hsr. unfold FindOne. rewrite Hb.
  unfold Collection_FindOne, invoke, bind.
  destruct (drv_FindOne _ _ _) as [sr conn]. simpl in Hsr.
  unfold SingleResult_Decode. rewrite Hsr.
  unfold unmarshal_cell, bind, get_objs, put_objs, ret. simpl.
  destruct (bson_decode (sr_rdr sr) bson_zero) as [t [e |]]; simpl.
  - destruct (decide (e = ErrNoDocuments)); simpl;
      (split; [eexists; reflexivity |]);
      (split; [apply take_app_length | reflexivity]).
  - split; [eexists; reflexivity |].
    split; [apply take_app_length | reflexivity].
Qed.

(** X9. When the driver's find yields a cursor with no document and no
    error, [Find] without aggregation returns no error and writes
    nothing. *)
Theorem Find_no_documents mr (models : Slice) (filter : any T)
    (opts : list FindOptions) w (bson : option D) (e : option error) :
  ToBson filter = (bson, None) ->
  fst (drv_Find (GetCollection mr) (APtrD bson) opts (w_conn w))
  = (Some {| cur_batch := []; cur_err := None |}, e) ->
  fst (Find mr models filter ANil opts w) = Val None /\
  w_objs (snd (Find mr models filter ANil opts w)) = w_objs w /\
  w_arrays (snd (Find mr models filter ANil opts w)) = w_arrays w.
Proof.
  intros Hb Hd. unfold Find. rewrite Hb. simpl.
  unfold Collection_Find, invoke, bind, ret.
  destruct (drv_Find _ _ _ _) as [r conn]. simpl in Hd. subst r.
  simpl. repeat split; reflexivity.
Qed.

End FindErrors.

(** ** What [Find] leaves alone *)

Section Frame.

Context {T W : Type} `{BsonStruct T} `{Driver T W}.

Implicit Types (w : World T W).

Lemma prefix_insert_beyond {A : Type} (l0 l : list A) (i : nat) (x : A) :
  l0 `prefix_of` l -> length l0 <= i -> l0 `prefix_of` <[i := x]> l.
Proof.
  intros [k ->] Hi. exists (<[i - length l0 := x]> k).
  apply insert_app_r_alt. exact Hi.
Qed.

Lemma holds_bind {A B : Type} (P : World T W -> Prop) (c : @M T W A)
    (Q : A -> World T W -> Prop) (k : A -> @M T W B)
    (R : B -> World T W -> Prop) (F : World T W -> Prop) :
  holds P c Q F -> (forall a, holds (Q a) (k a) R F) -> holds P (bind c k) R F.
Proof.
  intros Hc Hk w HP. unfold bind. specialize (Hc w HP).
  destruct (c w) as [[a | r] w1]; [apply (Hk a w1 Hc) | exact Hc].
Qed.

Variables (objs0 : list T) (arrays0 : list (list (option nat))).

Local Abbreviation m := (length objs0).
Local Abbreviation n := (length arrays0).
Local Abbreviation F := (framed (W:=W) objs0 arrays0).

Lemma holds_grow_slice (s : Slice) :
  holds (fun w => F w /\ private_slice m n w s) (grow_slice s)
        (fun s' w => F w /\ private_slice m n w s') F.
Proof.
  intros w [[Ho Ha] Hs]. unfold grow_slice, bind, get_arrays, put_arrays, ret.
  simpl. unfold private_slice in Hs.
  destruct (s_arr s) as [a |] eqn:Ea.
  - destruct Hs as (Hn & cells & Hc & Hf). rewrite Hc. simpl.
    destruct (Nat.ltb _ _) eqn:El; simpl.
    + split; [split; [exact Ho | apply prefix_insert_beyond; assumption] |].
      unfold private_slice. simpl. split; [exact Hn |].
      exists (<[s_len s := None]> cells). split.
      * apply list_lookup_insert_eq. apply lookup_lt_Some in Hc. exact Hc.
      * apply Forall_insert; [exact Hf | exact I].
    + split; [split; [exact Ho | apply prefix_app_r; exact Ha] |].
      unfold private_slice. simpl.
      split; [apply prefix_length in Ha; exact Ha |].
      eexists. split.
      * rewrite lookup_app_r by lia. rewrite Nat.sub_diag. reflexivity.
      * apply Forall_app. split; [apply Forall_take; exact Hf |].
        apply Forall_replicate. exact I.
  - simpl.
    split; [split; [exact Ho | apply prefix_app_r; exact Ha] |].
    unfold private_slice. simpl.
    split; [apply prefix_length in Ha; exact Ha |].
    eexists. split.
    + rewrite lookup_app_r by lia. rewrite Nat.sub_diag. reflexivity.
    + apply Forall_app. split; [rewrite take_nil; constructor |].
      apply Forall_replicate. exact I.
Qed.

Lemma holds_load_cell (s : Slice) (i : nat) :
  holds (fun w => F w /\ private_slice m n w s) (load_cell s i)
        (fun c w => (F w /\ private_slice m n w s) /\ fresh_cell m c) F.
Proof.
  intros w [HF Hs]. unfold load_cell, bind, get_arrays, ret, panic. simpl.
  pose proof Hs as Hs'. unfold private_slice in Hs'.
  destruct (s_arr s) as [a |]; [| exact HF].
  destruct Hs' as (Hn & cells & Hc & Hf). rewrite Hc. simpl.
  destruct (cells !! i) as [p |] eqn:Ep; [| exact HF].
  destruct (Nat.ltb i (s_len s)); [| exact HF].
  split; [split; assumption |].
  apply (Forall_lookup_1 _ _ _ _ Hf Ep).
Qed.

Lemma holds_unmarshal_cell (s : Slice) (doc : D) (cell : option nat) :
  holds (fun w => (F w /\ private_slice m n w s) /\ fresh_cell m cell)
        (unmarshal_cell doc cell)
        (fun r w => (F w /\ private_slice m n w s) /\ fresh_cell m (snd r)) F.
Proof.
  intros w [[[Ho Ha] Hs] Hc].
  unfold unmarshal_cell, bind, get_objs, put_objs, ret, panic. simpl.
  destruct cell as [a |].
  - destruct (w_objs w !! a) as [t0 |]; [| split; assumption].
    destruct (bson_decode doc t0) as [t err]. simpl.
    split; [split; [split |] |]; try assumption.
    apply prefix_insert_beyond; assumption.
  - destruct (bson_decode doc bson_zero) as [t err]. simpl.
    split; [split; [split |] |]; try assumption.
    + apply prefix_app_r. exact Ho.
    + apply prefix_length in Ho. exact Ho.
Qed.

Lemma holds_store_cell (s : Slice) (i : nat) (p : option nat) :
  holds (fun w => (F w /\ private_slice m n w s) /\ fresh_cell m p)
        (store_cell s i p)
        (fun _ w => F w /\ private_slice m n w s) F.
Proof.
  intros w [[[Ho Ha] Hs] Hp].
  unfold store_cell, bind, get_arrays, put_arrays, ret, panic. simpl.
  pose proof Hs as Hs'. unfold private_slice in Hs'.
  destruct (s_arr s) as [a |] eqn:Ea; [| split; assumption].
  destruct Hs' as (Hn & cells & Hc & Hf). rewrite Hc. simpl.
  split; [split; [exact Ho | apply prefix_insert_beyond; assumption] |].
  unfold private_slice. rewrite Ea. simpl. split; [exact Hn |].
  exists (<[i := p]> cells). split.
  - apply list_lookup_insert_eq. apply lookup_lt_Some in Hc. exact Hc.
  - apply Forall_insert; assumption.
Qed.

Lemma holds_addFromBatch (docs : list D) :
  forall (s : Slice) (index : nat),
    holds (fun w => F w /\ private_slice m n w s) (addFromBatch docs s index)
          (fun _ w => F w) F.
Proof.
  induction docs as [| doc rest IH]; intros s index; simpl.
  - intros w [HF _]. exact HF.
  - apply holds_bind with (Q := fun s1 w => F w /\ private_slice m n w s1).
    { destruct (Nat.eqb _ _); [apply holds_grow_slice |].
      intros w Hw. exact Hw. }
    intros s1. eapply holds_bind; [apply holds_load_cell |].
    intros cell. eapply holds_bind; [apply holds_unmarshal_cell |].
    intros [err cell']. eapply holds_bind; [apply holds_store_cell |].
    intros u. destruct err as [e |]; [| apply IH].
    intros w [HF _]. exact HF.
Qed.

Lemma holds_Cursor_All (c : option Cursor) (s : Slice) :
  holds (fun w => F w /\ private_slice m n w s) (Cursor_All c s)
        (fun _ w => F w) F.
Proof.
  unfold Cursor_All. destruct c as [cur |].
  - eapply holds_bind; [apply holds_addFromBatch |].
    intros [[err s'] index] w HF.
    destruct err; [exact HF |]. destruct (cur_err cur); exact HF.
  - intros w [HF _]. exact HF.
Qed.

End Frame.

Section FindFrame.

Context {T W : Type} `{IMongoModel T} `{BsonStruct T} `{Bson T}
  `{Driver T W}.

(** X10. [Find] with a nil destination, whatever the driver returns: every
    object and every array the caller held before the call is still there
    with its contents; what the call decodes goes to memory it allocates. *)
Theorem Find_nil_destination_frame (mr : MongoRepository T)
    (filter aggregate : any T) (opts : list FindOptions) (w : World T W) :
  w_objs w `prefix_of`
    w_objs (snd (Find mr {| s_arr := None; s_len := 0 |} filter aggregate
                   opts w)) /\
  w_arrays w `prefix_of`
    w_arrays (snd (Find mr {| s_arr := None; s_len := 0 |} filter aggregate
                     opts w)).
Proof.
  set (nil := {| s_arr := None; s_len := 0 |}).
  assert (Hw : framed (w_objs w) (w_arrays w) w) by (split; reflexivity).
  assert (HF : holds (framed (w_objs w) (w_arrays w))
                 (Find mr nil filter aggregate opts)
                 (fun _ w' => framed (w_objs w) (w_arrays w) w')
                 (framed (w_objs w) (w_arrays w))).
  { unfold Find. destruct (ToBson filter) as [bson [e |]].
    - intros w0 Hw0. exact Hw0.
    - apply holds_bind with (Q := fun _ => framed (w_objs w) (w_arrays w)).
      { destruct (is_nil aggregate); [intros w0 Hw0; exact Hw0 |].
        unfold Collection_Aggregate, invoke, bind, ret. intros w0 Hw0.
        destruct (drv_Aggregate _ _ _) as [r conn]. exact Hw0. }
      intros _.
      apply holds_bind
        with (Q := fun _ w0 => framed (w_objs w) (w_arrays w) w0
                               /\ private_slice (length (w_objs w))
                                    (length (w_arrays w)) w0 nil).
      { unfold Collection_Find, invoke. intros w0 Hw0.
        destruct (drv_Find _ _ _ _) as [r conn]. split; [exact Hw0 | exact I]. }
      intros [cursor e]. eapply holds_bind; [apply holds_Cursor_All |].
      intros [err s] w0 Hw0. destruct err; exact Hw0. }
  specialize (HF w Hw).
  destruct (Find mr nil filter aggregate opts w) as [[r | r] w']; exact HF.
Qed.

End FindFrame.

(** ** What the write methods return *)

Section Writes.

Context {T W : Type} `{IMongoModel T} `{BsonStruct T} `{Bson T}
  `{Driver T W}.

Implicit Types (mr : MongoRepository T) (w : World T W).

(** X7. Whenever a write method returns an error, what it returns beside
    the error is empty: the nil identifier from [InsertOne] and
    [InsertMany], the count 0 from [ReplaceOne], [UpdateOne], [UpdateMany],
    [DeleteOne] and [DeleteMany]. *)
Theorem write_error_means_empty mr (filter update : any T)
    (model : option T) (models : option (list T))
    (io : list InsertOneOptions) (im : list InsertManyOptions)
    (ro : list ReplaceOptions) (uo : list UpdateOptions)
    (dopts : list DeleteOptions) w :
  match fst (InsertOne mr model io w) with
  | Val (Some _, id) => id = ANil
  | _ => True
  end /\
  match fst (InsertMany mr models im w) with
  | Val (Some _, ids) => ids = ANil
  | _ => True
  end /\
  match fst (ReplaceOne mr filter model ro w) with
  | Val (Some _, count) => count = 0%Z
  | _ => True
  end /\
  match fst (UpdateOne mr filter update uo w) with
  | Val (Some _, count) => count = 0%Z
  | _ => True
  end /\
  match fst (UpdateMany mr filter update uo w) with
  | Val (Some _, count) => count = 0%Z
  | _ => True
  end /\
  match fst (DeleteOne mr filter dopts w) with
  | Val (Some _, count) => count = 0%Z
  | _ => True
  end /\
  match fst (DeleteMany mr filter dopts w) with
  | Val (Some _, count) => count = 0%Z
  | _ => True
  end.
Proof.
  unfold InsertOne, InsertMany, ReplaceOne, UpdateOne, UpdateMany,
    DeleteOne, DeleteMany, Collection_InsertOne, Collection_InsertMany,
    Collection_ReplaceOne, Collection_UpdateOne, Collection_UpdateMany,
    Collection_DeleteOne, Collection_DeleteMany, invoke, bind.
  repeat split.
  - destruct (drv_InsertOne _ _ _ _) as [[[r |] [e |]] conn]; simpl; trivial.
  - destruct (drv_InsertMany _ _ _ _) as [[[r |] [e |]] conn]; simpl; trivial.
  - destruct (drv_ReplaceOne _ _ _ _ _) as [[[r |] [e |]] conn]; simpl; trivial.
  - destruct (drv_UpdateOne _ _ _ _ _) as [[[r |] [e |]] conn]; simpl; trivial.
  - destruct (drv_UpdateMany _ _ _ _ _) as [[[r |] [e |]] conn]; simpl; trivial.
  - destruct (drv_DeleteOne _ _ _ _) as [[[r |] [e |]] conn]; simpl; trivial.
  - destruct (drv_DeleteMany _ _ _ _) as [[[r |] [e |]] conn]; simpl; trivial.
Qed.

(** X8. On success [UpdateOne], [UpdateMany] and [ReplaceOne] return the
    number of documents the driver modified, not the number it matched. *)
Theorem update_reports_modified_count mr (filter update : any T)
    (model : option T) (ro : list ReplaceOptions) (uo : list UpdateOptions)
    w (r : UpdateResult) :
  (fst (drv_UpdateOne (GetCollection mr) filter update uo (w_conn w))
   = (Some r, None) ->
   fst (UpdateOne mr filter update uo w) = Val (None, ModifiedCount r)) /\
  (fst (drv_UpdateMany (GetCollection mr) filter update [] (w_conn w))
   = (Some r, None) ->
   fst (UpdateMany mr filter update uo w) = Val (None, ModifiedCount r)) /\
  (fst (drv_ReplaceOne (GetCollection mr) filter (APtrT model) ro (w_conn w))
   = (Some r, None) ->
   fst (ReplaceOne mr filter model ro w) = Val (None, ModifiedCount r)).
Proof.
  unfold UpdateOne, UpdateMany, ReplaceOne, Collection_UpdateOne,
    Collection_UpdateMany, Collection_ReplaceOne, invoke, bind.
  repeat split; intros Hd.
  - destruct (drv_UpdateOne _ _ _ _ _) as [res conn]. simpl in Hd.
    subst res. reflexivity.
  - destruct (drv_UpdateMany _ _ _ _ _) as [res conn]. simpl in Hd.
    subst res. reflexivity.
  - destruct (drv_ReplaceOne _ _ _ _ _) as [res conn]. simpl in Hd.
    subst res. reflexivity.
Qed.

End Writes.

(** ** [Find] through an element the caller holds *)

Section FindInto.

Context {T W : Type} `{IMongoModel T} `{BsonStruct T} `{Bson T}
  `{Driver T W}.

Implicit Types (mr : MongoRepository T) (w : World T W).

(** X11. [Find] into a destination of one element that points to a
    struct, when the cursor holds one document that decodes: no error, the
    struct holds the decoded document, and the arrays are as they were. *)
Theorem Find_into_one_element mr (a b : nat) (filter : any T)
    (opts : list FindOptions) w (bson : option D) (e : option error)
    (doc : D) (cells : list (option nat)) (t0 t : T) :
  ToBson filter = (bson, None) ->
  fst (drv_Find (GetCollection mr) (APtrD bson) opts (w_conn w))
  = (Some {| cur_batch := [doc]; cur_err := None |}, e) ->
  w_arrays w !! a = Some cells ->
  cells !! 0 = Some (Some b) ->
  w_objs w !! b = Some t0 ->
  bson_decode doc t0 = (t, None) ->
  fst (Find mr {| s_arr := Some a; s_len := 1 |} filter ANil opts w)
  = Val None /\
  w_objs (snd (Find mr {| s_arr := Some a; s_len := 1 |} filter ANil opts w))
  = <[b := t]> (w_objs w) /\
  w_arrays (snd (Find mr {| s_arr := Some a; s_len := 1 |} filter ANil opts w))
  = w_arrays w.
Proof.
  intros Hb Hd Ha Hc Ho Hdec. unfold Find. rewrite Hb. simpl.
  unfold Collection_Find, invoke, bind, ret.
  destruct (drv_Find _ _ _ _) as [r conn]. simpl in Hd. subst r.
  unfold Cursor_All, addFromBatch, bind, ret. simpl.
  unfold load_cell, bind, get_arrays, ret. simpl. rewrite Ha. simpl.
  rewrite Hc.
  unfold unmarshal_cell, bind, get_objs, put_objs, ret. simpl.
  rewrite Ho, Hdec. simpl.
  unfold store_cell, bind, get_arrays, put_arrays. simpl. rewrite Ha. simpl.
  repeat split.
  rewrite (list_insert_id cells 0 (Some b) Hc).
  apply list_insert_id. exact Ha.
Qed.

End FindInto.

(** ** Construction and failed decoding *)

Section Construction.

Context {T W : Type} `{IMongoModel T} `{BsonStruct T} `{Bson T}
  `{Driver T W}.

Implicit Types (mr : MongoRepository T) (w : World T W).

(** X12. [InitRepository] returns a repository exactly when the model it
    is given has the type the repository is for; a model of another type
    makes it panic, there is no error return. *)
Theorem InitRepository_succeeds_iff (database : mongo_Database)
    (model : model_value T) :
  (exists mr, InitRepository database model = Val mr) <->
  (exists t, model = IsT t).
Proof.
  split.
  - intros [mr Hmr]. destruct model as [t | c]; [exists t; reflexivity |].
    discriminate.
  - intros [t ->]. eexists. reflexivity.
Qed.

(** X13. When the driver finds a document and decoding it into the
    destination fails, [FindOne] returns the codec's error, and the
    destination is left as the decoder left it: the fields decoded before
    the failure stay written. *)
Theorem FindOne_decode_error_writes mr (a : nat) (filter : any T)
    (opts : list FindOneOptions) w (bson : option D) (t0 t : T)
    (e : error) :
  ToBson filter = (bson, None) ->
  sr_err (fst (drv_FindOne (GetCollection mr) (APtrD bson) (w_conn w)))
  = None ->
  w_objs w !! a = Some t0 ->
  bson_decode
    (sr_rdr (fst (drv_FindOne (GetCollection mr) (APtrD bson) (w_conn w))))
    t0 = (t, Some e) ->
  e <> ErrNoDocuments ->
  fst (FindOne mr (Some a) filter opts w) = Val (Some e) /\
  w_objs (snd (FindOne mr (Some a) filter opts w)) = <[a := t]> (w_objs w).
Proof.
  intros Hb Hsr Ha Hdec Hne. unfold FindOne. rewrite Hb.
  unfold Collection_FindOne, invoke, bind.
  destruct (drv_FindOne _ _ _) as [sr conn]. simpl in Hsr, Hdec.
  unfold SingleResult_Decode. rewrite Hsr.
  unfold unmarshal_cell, bind, get_objs, put_objs, ret. simpl.
  rewrite Ha, Hdec. simpl.
  destruct (decide (e = ErrNoDocuments)); [contradiction |].
  split; reflexivity.
Qed.

End Construction.

(** ** The further properties on the in-memory driver *)

(** X2 at the filter 5, an integer. *)
Lemma normalization_error_stops_find_witness :
  snd (ToBson (T:=User) (AInt 5))
  = Some (ErrBson "cannot marshal value as a BSON document") /\
  FindOne users (Some 0) (AInt 5) [] (one_slot alice with_alice)
  = (Val (Some (ErrBson "cannot marshal value as a BSON document")),
     one_slot alice with_alice) /\
  Find users slot_slice (AInt 5) match_name_a [] (one_slot alice with_alice)
  = (Val (Some (ErrBson "cannot marshal value as a BSON document")),
     one_slot alice with_alice).
Proof.
  split; [vm_compute; reflexivity |].
  apply (normalization_error_stops_find users (Some 0) slot_slice (AInt 5)
           match_name_a [] [] (one_slot alice with_alice)).
  vm_compute. reflexivity.
Defined.

(** X3 on a lost connection. *)
Lemma FindOne_driver_error_witness :
  ToBson by_name_a = (Some name_a, None) /\
  sr_err (fst (drv_FindOne (T:=User) (GetCollection users)
                 (APtrD (Some name_a))
                 (Mem.disconnect (ErrDriver "connection refused") with_alice)))
  = Some (ErrDriver "connection refused") /\
  ErrDriver "connection refused" <> ErrNoDocuments /\
  fst (FindOne users (Some 0) by_name_a []
         (one_slot bob
            (Mem.disconnect (ErrDriver "connection refused") with_alice)))
  = Val (Some (ErrDriver "connection refused")) /\
  w_objs (snd (FindOne users (Some 0) by_name_a []
                 (one_slot bob
                    (Mem.disconnect (ErrDriver "connection refused")
                       with_alice))))
  = [bob] /\
  w_arrays (snd (FindOne users (Some 0) by_name_a []
                   (one_slot bob
                      (Mem.disconnect (ErrDriver "connection refused")
                         with_alice))))
  = [[Some 0]].
Proof.
  split; [vm_compute; reflexivity |].
  split; [vm_compute; reflexivity |].
  split; [discriminate |].
  apply (FindOne_driver_error users (Some 0) by_name_a []
           (one_slot bob
              (Mem.disconnect (ErrDriver "connection refused") with_alice))
           (bson:=Some name_a));
    [vm_compute; reflexivity | vm_compute; reflexivity | discriminate].
Defined.


(** X6 on a server that holds [alice], by a caller that holds [bob]. *)
Lemma FindOne_nil_model_witness :
  ToBson by_name_a = (Some name_a, None) /\
  sr_err (fst (drv_FindOne (T:=User) (GetCollection users)
                 (APtrD (Some name_a)) with_alice))
  = None /\
  (exists r,
      fst (FindOne users None by_name_a [] (one_slot bob with_alice))
      = Val r) /\
  take 1 (w_objs (snd (FindOne users None by_name_a []
                         (one_slot bob with_alice))))
  = [bob] /\
  w_arrays (snd (FindOne users None by_name_a [] (one_slot bob with_alice)))
  = [[Some 0]].
Proof.
  split; [vm_compute; reflexivity |].
  split; [vm_compute; reflexivity |].
  apply (FindOne_nil_model users by_name_a [] (one_slot bob with_alice)
           (bson:=Some name_a));
    vm_compute; reflexivity.
Defined.

(** X8 at updates and a replacement that match [alice] and change
    nothing: the driver reports one match and no change, the methods
    return 0. *)
Lemma update_reports_modified_count_witness :
  (fst (drv_UpdateOne (GetCollection users) by_name_a set_age_30 [] with_alice)
   = (Some {| MatchedCount := 1; ModifiedCount := 0 |}, None) /\
   fst (UpdateOne users by_name_a set_age_30 [] (start with_alice))
   = Val (None, 0%Z)) /\
  (fst (drv_UpdateMany (GetCollection users) by_name_a set_age_30 []
          with_alice)
   = (Some {| MatchedCount := 1; ModifiedCount := 0 |}, None) /\
   fst (UpdateMany users by_name_a set_age_30 [] (start with_alice))
   = Val (None, 0%Z)) /\
  (fst (drv_ReplaceOne (GetCollection users) by_name_a (APtrT (Some alice)) []
          with_alice)
   = (Some {| MatchedCount := 1; ModifiedCount := 0 |}, None) /\
   fst (ReplaceOne users by_name_a (Some alice) [] (start with_alice))
   = Val (None, 0%Z)).
Proof.
  destruct (update_reports_modified_count users by_name_a set_age_30
              (Some alice) [] [] (start with_alice)
              {| MatchedCount := 1; ModifiedCount := 0 |})
    as (H1 & H2 & H3).
  repeat split;
    first [ apply H1 | apply H2 | apply H3 | idtac ];
    vm_compute; reflexivity.
Defined.

(** X9 on a server that holds only [bob], asked for the name of
    [alice]. *)
Lemma Find_no_documents_witness :
  ToBson by_name_a = (Some name_a, None) /\
  fst (drv_Find (T:=User) (GetCollection users) (APtrD (Some name_a)) []
         with_bob)
  = (Some {| cur_batch := []; cur_err := None |}, None) /\
  fst (Find users slot_slice by_name_a ANil [] (one_slot alice with_bob))
  = Val None /\
  w_objs (snd (Find users slot_slice by_name_a ANil []
                 (one_slot alice with_bob)))
  = [alice] /\
  w_arrays (snd (Find users slot_slice by_name_a ANil []
                   (one_slot alice with_bob)))
  = [[Some 0]].
Proof.
  split; [vm_compute; reflexivity |].
  split; [vm_compute; reflexivity |].
  apply (Find_no_documents users slot_slice by_name_a []
           (one_slot alice with_bob) (bson:=Some name_a) (e:=None));
    vm_compute; reflexivity.
Defined.

(** X11 on a server that holds [alice], into a struct that held [bob]. *)
Lemma Find_into_one_element_witness :
  ToBson by_name_a = (Some name_a, None) /\
  fst (drv_Find (T:=User) (GetCollection users) (APtrD (Some name_a)) []
         with_alice)
  = (Some {| cur_batch := [alice_stored]; cur_err := None |}, None) /\
  fst (Find users slot_slice by_name_a ANil [] (one_slot bob with_alice))
  = Val None /\
  w_objs (snd (Find users slot_slice by_name_a ANil []
                 (one_slot bob with_alice)))
  = [alice] /\
  w_arrays (snd (Find users slot_slice by_name_a ANil []
                   (one_slot bob with_alice)))
  = [[Some 0]].
Proof.
  split; [vm_compute; reflexivity |].
  split; [vm_compute; reflexivity |].
  apply (Find_into_one_element users 0 by_name_a []
           (one_slot bob with_alice) (b:=0) (bson:=Some name_a) (e:=None)
           (doc:=alice_stored) (cells:=[Some 0]) (t0:=bob) (t:=alice));
    vm_compute; reflexivity.
Defined.

(** X13 on a stored document whose name decodes and whose age does not:
    the destination, which held [bob], ends with the name of the document
    and the age of [bob]. *)
Lemma FindOne_decode_error_writes_witness :
  ToBson by_name_a = (Some name_a, None) /\
  sr_err (fst (drv_FindOne (T:=User) (GetCollection users)
                 (APtrD (Some name_a)) with_bad_age))
  = None /\
  bson_decode
    (sr_rdr (fst (drv_FindOne (T:=User) (GetCollection users)
                    (APtrD (Some name_a)) with_bad_age)))
    bob
  = ({| Name := "a"; Age := 41 |},
     Some (ErrBson "cannot decode into an integer type")) /\
  fst (FindOne users (Some 0) by_name_a [] (one_slot bob with_bad_age))
  = Val (Some (ErrBson "cannot decode into an integer type")) /\
  w_objs (snd (FindOne users (Some 0) by_name_a []
                 (one_slot bob with_bad_age)))
  = [{| Name := "a"; Age := 41 |}].
Proof.
  split; [vm_compute; reflexivity |].
  split; [vm_compute; reflexivity |].
  split; [vm_compute; reflexivity |].
  apply (FindOne_decode_error_writes users 0 by_name_a []
           (one_slot bob with_bad_age) (bson:=Some name_a) (t0:=bob)
           (t:={| Name := "a"; Age := 41 |})
           (e:=ErrBson "cannot decode into an integer type"));
    first [ discriminate | vm_compute; reflexivity ].
Defined.

(** ** One collection for the life of a repository *)

Section Pinned.

Context {T W : Type} `{IMongoModel T} `{BsonStruct T} `{Bson T}
  `{Driver T W}.

Implicit Types (mr : MongoRepository T) (w : World T W).

Variables (a : nat) (t : T).

Local Abbreviation P := (pinned (W:=W) a t).

Lemma pinned_invoke {R : Type} (c : Call T) (op : W -> R * W) :
  holds P (invoke c op) (fun _ => P) P.
Proof.
  intros w Hw. unfold invoke. destruct (op (w_conn w)) as [r conn]. exact Hw.
Qed.

Lemma pinned_unmarshal_cell (doc : D) (cell : option nat) :
  cell <> Some a ->
  holds P (unmarshal_cell doc cell)
        (fun r w => P w /\ snd r <> Some a) P.
Proof.
  intros Hc w [Ho Ha].
  unfold unmarshal_cell, bind, get_objs, put_objs, ret, panic. simpl.
  destruct cell as [b |].
  - destruct (w_objs w !! b) as [t0 |]; [| split; assumption].
    destruct (bson_decode doc t0) as [t1 err]. simpl.
    split; [split; [| exact Ha] | exact Hc]. simpl.
    rewrite list_lookup_insert_ne; [exact Ho | congruence].
  - destruct (bson_decode doc bson_zero) as [t1 err]. simpl.
    pose proof (lookup_lt_Some _ _ _ Ho) as Hlt.
    split; [split; [| exact Ha] |]; simpl.
    + rewrite lookup_app_l by exact Hlt. exact Ho.
    + intros E. inversion E. lia.
Qed.

Lemma pinned_SingleResult_Decode (sr : SingleResult) (model : option nat) :
  model <> Some a ->
  holds P (SingleResult_Decode sr model) (fun _ => P) P.
Proof.
  intros Hm. unfold SingleResult_Decode. destruct (sr_err sr).
  - intros w Hw. exact Hw.
  - intros w Hw.
    assert (Hu : holds P (unmarshal_cell (sr_rdr sr) model)
                   (fun r w' => P w' /\ snd r <> Some a) P)
      by (apply pinned_unmarshal_cell; exact Hm).
    specialize (Hu w Hw).
    destruct (unmarshal_cell (sr_rdr sr) model w) as [[r | r] w'];
      [exact (proj1 Hu) | exact Hu].
Qed.

Lemma unreferenced_insert (arrays : list (list (option nat))) (i : nat)
    (cells : list (option nat)) :
  unreferenced a arrays -> Forall (fun c => c <> Some a) cells ->
  unreferenced a (<[i := cells]> arrays).
Proof. intros Ha Hc. apply Forall_insert; assumption. Qed.

Lemma unreferenced_lookup (arrays : list (list (option nat))) (i : nat) :
  unreferenced a arrays ->
  Forall (fun c => c <> Some a) (default [] (arrays !! i)).
Proof.
  intros Ha. destruct (arrays !! i) as [cells |] eqn:E; simpl.
  - apply (Forall_lookup_1 _ _ _ _ Ha E).
  - constructor.
Qed.

Lemma pinned_grow_slice (s : Slice) :
  holds P (grow_slice s) (fun _ => P) P.
Proof.
  intros w [Ho Ha]. unfold grow_slice, bind, get_arrays, put_arrays, ret.
  simpl.
  set (old := match s_arr s with
              | Some b => default [] (w_arrays w !! b)
              | None => []
              end).
  assert (Hold : Forall (fun c => c <> Some a) old).
  { subst old. destruct (s_arr s); [apply unreferenced_lookup; exact Ha |].
    constructor. }
  destruct (Nat.ltb _ _).
  - destruct (s_arr s) as [b |]; simpl; [| split; assumption].
    split; [exact Ho |]. apply unreferenced_insert; [exact Ha |].
    apply Forall_insert; [exact Hold | discriminate].
  - simpl. split; [exact Ho |]. apply Forall_app. split; [exact Ha |].
    constructor; [| constructor]. apply Forall_app.
    split; [apply Forall_take; exact Hold |].
    apply Forall_replicate. discriminate.
Qed.

Lemma pinned_load_cell (s : Slice) (i : nat) :
  holds P (load_cell s i) (fun c w => P w /\ c <> Some a) P.
Proof.
  intros w [Ho Ha]. unfold load_cell, bind, get_arrays, ret, panic. simpl.
  destruct (s_arr s) as [b |]; [| split; assumption].
  assert (Hc : Forall (fun c => c <> Some a) (default [] (w_arrays w !! b)))
    by (apply unreferenced_lookup; exact Ha).
  destruct (default [] (w_arrays w !! b) !! i) as [p |] eqn:Ep;
    [| split; assumption].
  destruct (Nat.ltb i (s_len s)); [| split; assumption].
  split; [split; assumption |].
  apply (Forall_lookup_1 _ _ _ _ Hc Ep).
Qed.

Lemma pinned_store_cell (s : Slice) (i : nat) (p : option nat) :
  p <> Some a ->
  holds P (store_cell s i p) (fun _ => P) P.
Proof.
  intros Hp w [Ho Ha].
  unfold store_cell, bind, get_arrays, put_arrays, ret, panic. simpl.
  destruct (s_arr s) as [b |]; simpl; [| split; assumption].
  split; [exact Ho |]. apply unreferenced_insert; [exact Ha |].
  apply Forall_insert; [apply unreferenced_lookup; exact Ha | exact Hp].
Qed.

Lemma pinned_addFromBatch (docs : list D) :
  forall (s : Slice) (index : nat),
    holds P (addFromBatch docs s index) (fun _ => P) P.
Proof.
  induction docs as [| doc rest IH]; intros s index; simpl.
  - intros w Hw. exact Hw.
  - apply holds_bind with (Q := fun _ => P).
    { destruct (Nat.eqb _ _); [apply pinned_grow_slice |].
      intros w Hw. exact Hw. }
    intros s1. eapply holds_bind; [apply pinned_load_cell |].
    intros cell w [Hw Hc]. revert w Hw.
    change (holds P
              (bind (unmarshal_cell doc cell)
                 (fun x => match x with
                           | (err, cell') =>
                               bind (store_cell s1 index cell')
                                 (fun _ =>
                                    match err with
                                    | Some e => ret (Some e, s1, index)
                                    | None => addFromBatch rest s1 (S index)
                                    end)
                           end))
              (fun _ => P) P).
    eapply holds_bind; [apply pinned_unmarshal_cell; exact Hc |].
    intros [err cell'] w [Hw Hc']. revert w Hw.
    change (holds P
              (bind (store_cell s1 index cell')
                 (fun _ =>
                    match err with
                    | Some e => ret (Some e, s1, index)
                    | None => addFromBatch rest s1 (S index)
                    end))
              (fun _ => P) P).
    eapply holds_bind; [apply pinned_store_cell; exact Hc' |].
    intros u. destruct err as [e |]; [| apply IH].
    intros w Hw. exact Hw.
Qed.


Lemma pinned_Cursor_All (c : option Cursor) (s : Slice) :
  holds P (Cursor_All c s) (fun _ => P) P.
Proof.
  unfold Cursor_All. destruct c as [cur |].
  - eapply holds_bind; [apply pinned_addFromBatch |].
    intros [[err s'] index] w Hw.
    destruct err; [exact Hw |]. destruct (cur_err cur); exact Hw.
  - intros w Hw. exact Hw.
Qed.

Lemma pinned_ret {A : Type} (x : A) : holds P (ret x) (fun _ => P) P.
Proof. intros w Hw. exact Hw. Qed.

Lemma pinned_deref {R A : Type} (result : option R) (field : R -> A) :
  holds P (deref (W:=W) result field) (fun _ => P) P.
Proof. intros w Hw. destruct result; exact Hw. Qed.

Lemma pinned_FindOne mr (model : option nat) (filter : any T)
    (opts : list FindOneOptions) :
  model <> Some a ->
  holds P (FindOne mr model filter opts) (fun _ => P) P.
Proof.
  intros Hm. unfold FindOne. destruct (ToBson filter) as [bson [e |]].
  - apply pinned_ret.
  - eapply holds_bind; [apply pinned_invoke |].
    intros sr. eapply holds_bind;
      [apply pinned_SingleResult_Decode; exact Hm |].
    intros [err m] w Hw. destruct err as [e |]; [| exact Hw].
    destruct (decide (e = ErrNoDocuments)); exact Hw.
Qed.

Lemma pinned_Find mr (models : Slice) (filter aggregate : any T)
    (opts : list FindOptions) :
  holds P (Find mr models filter aggregate opts) (fun _ => P) P.
Proof.
  unfold Find. destruct (ToBson filter) as [bson [e |]].
  - apply pinned_ret.
  - apply holds_bind with (Q := fun _ => P).
    { destruct (is_nil aggregate); [apply pinned_ret |].
      eapply holds_bind; [apply pinned_invoke |].
      intros r. apply pinned_ret. }
    intros u. eapply holds_bind; [apply pinned_invoke |].
    intros [cursor e]. eapply holds_bind; [apply pinned_Cursor_All |].
    intros [err s] w Hw. destruct err; exact Hw.
Qed.

Lemma pinned_run_op mr (op : Op) :
  ~ writes_to a op ->
  holds P (run_op mr op) (fun _ => P) P.
Proof.
  intros Hop. destruct op; simpl;
    (eapply holds_bind; [| intros r; apply pinned_ret]).
  - apply pinned_FindOne. exact Hop.
  - apply pinned_Find.
  - eapply holds_bind; [apply pinned_invoke |].
    intros [result [e |]]; [apply pinned_ret |].
    eapply holds_bind; [apply pinned_deref | intros x; apply pinned_ret].
  - eapply holds_bind; [apply pinned_invoke |].
    intros [result [e |]]; [apply pinned_ret |].
    eapply holds_bind; [apply pinned_deref | intros x; apply pinned_ret].
  - eapply holds_bind; [apply pinned_invoke |].
    intros [result [e |]]; [apply pinned_ret |].
    eapply holds_bind; [apply pinned_deref | intros x; apply pinned_ret].
  - eapply holds_bind; [apply pinned_invoke |].
    intros [result [e |]]; [apply pinned_ret |].
    eapply holds_bind; [apply pinned_deref | intros x; apply pinned_ret].
  - eapply holds_bind; [apply pinned_invoke |].
    intros [result [e |]]; [apply pinned_ret |].
    eapply holds_bind; [apply pinned_deref | intros x; apply pinned_ret].
  - eapply holds_bind; [apply pinned_invoke |].
    intros [result [e |]]; [apply pinned_ret |].
    eapply holds_bind; [apply pinned_deref | intros x; apply pinned_ret].
  - eapply holds_bind; [apply pinned_invoke |].
    intros [result [e |]]; [apply pinned_ret |].
    eapply holds_bind; [apply pinned_deref | intros x; apply pinned_ret].
Qed.

Lemma call_pinned (database : mongo_Database) (op : Op) w :
  P w ->
  call {| r_Model := a; r_Database := database |} op w
  = run_op {| Model := t; Database := database |} op w.
Proof.
  intros [Ho _]. unfold call, receiver_fields, bind, get_objs. simpl.
  rewrite Ho. reflexivity.
Qed.

Lemma calls_pinned (database : mongo_Database) (ops : list Op) :
  forall w,
    P w ->
    Forall (fun op => ~ writes_to a op) ops ->
    P (snd (calls {| r_Model := a; r_Database := database |} ops w)) /\
    exists new,
      w_calls (snd (calls {| r_Model := a; r_Database := database |} ops w))
      = w_calls w ++ new /\
      Forall (fun k => call_coll k
                       = Database_Collection database (Collection t))
             new.
Proof.
  induction ops as [| op rest IH]; intros w Hw Hops; simpl.
  - split; [exact Hw |]. exists []. rewrite app_nil_r.
    split; [reflexivity | constructor].
  - inversion Hops as [| op' rest' Hop Hrest]; subst.
    unfold bind. rewrite (call_pinned database op Hw).
    set (mr := {| Model := t; Database := database |}).
    assert (Hp : holds P (run_op mr op) (fun _ => P) P)
      by (apply pinned_run_op; exact Hop).
    specialize (Hp w Hw).
    destruct (run_op_issues (W:=W) mr op w) as (n1 & E1 & F1).
    destruct (run_op mr op w) as [[u | reason] w1]; simpl in *.
    + destruct (IH w1 Hp Hrest) as (Hp' & n2 & E2 & F2).
      split; [exact Hp' |]. exists (n1 ++ n2).
      rewrite E2, E1, app_assoc. split; [reflexivity |].
      apply Forall_app. split; assumption.
    + split; [exact Hp |]. exists n1. split; assumption.
Qed.

End Pinned.

Section Bound.

Context {T W : Type} `{IMongoModel T} `{BsonStruct T} `{Bson T}
  `{Driver T W}.


End Bound.



(** A [Find] into a slice whose element points to the [Model] field
    overwrites the bound model as well. *)
Example Find_overwrites_bound_model :
  map (fun k => c_name (call_coll k))
      (w_calls (snd (calls first_receiver
                       [OpFind {| s_arr := Some 0; s_len := 1 |}
                          by_title_todo ANil [];
                        OpDeleteOne by_title_todo []]
                       {| w_objs := [blank_note]; w_arrays := [[Some 0]];
                          w_conn := with_todo; w_calls := [] |})))
  = ["notes"%string; "tasks"%string].
Proof. vm_compute. reflexivity. Qed.
